(** * gdexport: the documentation-comment engine of [extractdocvisitor.cpp]

    A shallow embedding of the paragraph model, the inline-command expander,
    the comment classifier and the renderer, followed by the properties
    established about them. *)

From Stdlib Require Import String Ascii List Arith Lia Bool NArith.
From Equations Require Import Equations.
From Equations.Prop Require Import Logic.
Import ListNotations.

Local Open Scope string_scope.
Local Open Scope list_scope.

(** * Byte strings ([std::string], [llvm::StringRef]) *)

(** A string is the sequence of its bytes.  String literals are read as
    byte sequences through the coercion below. *)
Definition Str := list ascii.
Coercion list_ascii_of_string : string >-> list.

Module StringRef.

(** The default trim set of [StringRef], [" \t\n\v\f\r"]. *)
Definition whitespace : Str :=
  [" "%char; ascii_of_nat 9; ascii_of_nat 10; ascii_of_nat 11;
   ascii_of_nat 12; ascii_of_nat 13].

Definition in_chars (c : ascii) (chars : Str) : bool :=
  existsb (Ascii.eqb c) chars.

Definition is_space (c : ascii) : bool := in_chars c whitespace.

Definition empty (s : Str) : bool :=
  match s with [] => true | _ :: _ => false end.

Fixpoint eqb (a b : Str) : bool :=
  match a, b with
  | [], [] => true
  | x :: a', y :: b' => Ascii.eqb x y && eqb a' b'
  | _, _ => false
  end.

(** Position of the first byte satisfying [p]; [None] stands for [npos],
    the largest [size_t], which no position or length of a string
    reaches. *)
Fixpoint find_if (p : ascii -> bool) (s : Str) : option nat :=
  match s with
  | [] => None
  | c :: s' => if p c then Some 0 else option_map S (find_if p s')
  end.

Definition find_from (p : ascii -> bool) (s : Str) (from : nat) : option nat :=
  option_map (Nat.add from) (find_if p (skipn from s)).

Definition find (c : ascii) (s : Str) (from : nat) : option nat :=
  find_from (Ascii.eqb c) s from.

Definition find_first_of (chars s : Str) (from : nat) : option nat :=
  find_from (fun c => in_chars c chars) s from.

Definition find_first_not_of (chars s : Str) : option nat :=
  find_from (fun c => negb (in_chars c chars)) s 0.

(** [substr(Start, N)] and [substr(Start)]: both clamp to the string. *)
Definition substr (s : Str) (start n : nat) : Str := firstn n (skipn start s).
Definition substr_from (s : Str) (start : nat) : Str := skipn start s.

Fixpoint ltrim (s : Str) : Str :=
  match s with
  | [] => []
  | c :: s' => if is_space c then ltrim s' else s
  end.

Definition rtrim (s : Str) : Str := rev (ltrim (rev s)).

Definition trim (s : Str) : Str := rtrim (ltrim s).

End StringRef.

Infix "==" := StringRef.eqb (at level 70, no associativity).

(** * The output stream

    [llvm::raw_ostream] is an append-only sink: the model is the sequence of
    bytes written so far, threaded through every writer. *)
Definition raw_ostream := Str.

Definition put (os : raw_ostream) (s : Str) : raw_ostream := os ++ s.
Infix "<<" := put (at level 50, left associativity).

(** [raw_ostream::indent(n)] writes [n] spaces. *)
Definition indent (os : raw_ostream) (n : nat) : raw_ostream :=
  os << repeat " "%char n.

(** * XML escaping *)

Definition quot : ascii := ascii_of_nat 34.
Definition apos : ascii := ascii_of_nat 39.

(** [g_special]: the double quote, the apostrophe, [<], [>] and [&]. *)
Definition g_special : Str := [quot; apos; "<"%char; ">"%char; "&"%char].

(** The [switch] over [escape.Str[pos]]. *)
Definition entity (c : ascii) : Str :=
  if Ascii.eqb c (nth 0 g_special zero) then "&quot;"
  else if Ascii.eqb c (nth 1 g_special zero) then "&apos;"
  else if Ascii.eqb c (nth 2 g_special zero) then "&lt;"
  else if Ascii.eqb c (nth 3 g_special zero) then "&gt;"
  else if Ascii.eqb c (nth 4 g_special zero) then "&amp;"
  else [].

(** [operator<<(raw_ostream&, const XMLEscape&)]: the loop from position
    [start].  Its first search starts at 0, where [start] is 0 too, so every
    iteration searches from [start]. *)
Equations? XMLEscape_loop (s : Str) (start : nat) (os : raw_ostream)
  : raw_ostream by wf (length s - start) lt :=
  XMLEscape_loop s start os
    with inspect (StringRef.find_first_of g_special s start) := {
    | exist _ (Some pos) Hpos =>
        XMLEscape_loop s (pos + 1)
          (os << StringRef.substr s start (pos - start) << entity (nth pos s zero))
    | exist _ None _ => os << StringRef.substr_from s start }.
Proof.
  clear XMLEscape_loop.
  assert (Hfind : forall p t n, StringRef.find_if p t = Some n -> n < length t).
  { intros p t; induction t as [|c t IH]; simpl; intros n; [discriminate|].
    destruct (p c); [intros [= <-]; lia|].
    destruct (StringRef.find_if p t) as [m|]; simpl; [intros [= <-]|discriminate].
    specialize (IH m eq_refl); lia. }
  unfold StringRef.find_first_of, StringRef.find_from in Hpos.
  destruct (StringRef.find_if _ _) as [m|] eqn:E; simpl in Hpos; [|discriminate].
  injection Hpos as <-. apply Hfind in E. rewrite length_skipn in E. lia.
Qed.

Definition EscapeXML (os : raw_ostream) (str : Str) : raw_ostream :=
  XMLEscape_loop str 0 os.

(** The escaping as the specification words it: byte by byte. *)
Definition escape_char_spec (c : ascii) : Str :=
  if Ascii.eqb c quot then "&quot;"
  else if Ascii.eqb c apos then "&apos;"
  else if Ascii.eqb c "<" then "&lt;"
  else if Ascii.eqb c ">" then "&gt;"
  else if Ascii.eqb c "&" then "&amp;"
  else [c].

Definition escape_spec (s : Str) : Str := flat_map escape_char_spec s.

(** * Paragraph model *)

Module ParagraphType.
Inductive t := Normal | List | VerbatimText | GDScript | CSharpCode.

Definition eqb (a b : t) : bool :=
  match a, b with
  | Normal, Normal | List, List | VerbatimText, VerbatimText
  | GDScript, GDScript | CSharpCode, CSharpCode => true
  | _, _ => false
  end.

(** [operator<<(raw_ostream&, ParagraphType)]: the name of a code block. *)
Definition write (os : raw_ostream) (type : t) : raw_ostream :=
  match type with
  | VerbatimText => os << "text"
  | GDScript => os << "gdscript"
  | CSharpCode => os << "csharp"
  | Normal | List => os
  end.
End ParagraphType.

(** [struct Paragraph]; the member [Type] is [Type_] here. *)
Record Paragraph := mkParagraph {
  Data : list Str;
  Type_ : ParagraphType.t
}.

(** [Paragraph(ParagraphType type = ParagraphType::Normal)]. *)
Definition Paragraph_new (type : ParagraphType.t) : Paragraph :=
  mkParagraph [] type.

Definition Paragraphs := list Paragraph.

Module Para.

(** [Paragraph::empty]. *)
Definition empty (p : Paragraph) : bool :=
  forallb (fun data => StringRef.empty (StringRef.ltrim data)) (Data p).

(** [Paragraph::push_front]. *)
Definition push_front (p : Paragraph) (str : Str) : Paragraph :=
  let data :=
    match Data p with
    | [] => []
    | first :: rest =>
        match StringRef.find_first_not_of StringRef.whitespace first with
        | Some pos => StringRef.substr_from first pos :: rest
        | None => first :: rest
        end
    end in
  mkParagraph (str :: data) (Type_ p).

(** [operator+=(Paragraph&, const std::string&)] and its [StringRef] and
    [const char*] overloads. *)
Definition add_text (para : Paragraph) (text : Str) : Paragraph :=
  mkParagraph (Data para ++ [text]) (Type_ para).

(** [operator+=(Paragraph&, Paragraph&&)]. *)
Definition add (para text : Paragraph) : Paragraph :=
  if ParagraphType.eqb (Type_ para) (Type_ text)
  then mkParagraph (Data para ++ Data text) (Type_ para)
  else para.

Definition set_Type (type : ParagraphType.t) (p : Paragraph) : Paragraph :=
  mkParagraph (Data p) type.

End Para.

(** [operator+=(Paragraphs&, Paragraph&&)]. *)
Definition Paragraphs_add (paras : Paragraphs) (para : Paragraph) : Paragraphs :=
  paras ++ [para].

(** [std::list<Paragraph>::empty]. *)
Definition Paragraphs_empty (paras : Paragraphs) : bool :=
  match paras with [] => true | _ :: _ => false end.

Record StatusTag := mkStatusTag {
  IsTagPresent : bool;
  Message : Paragraph
}.

(** [struct Tutorial]; the member [Title] is [Title_] here. *)
Record Tutorial := mkTutorial {
  URL : Str;
  Title_ : Paragraph
}.

Record Parameters := mkParameters {
  Name : Str;
  Description : Paragraph
}.

(** [Parameters()]. *)
Definition Parameters_new : Parameters :=
  mkParameters [] (Paragraph_new ParagraphType.Normal).

(** * Renderer *)

(** The line feed, written ["\n"] in the source. *)
Definition nl : Str := [ascii_of_nat 10].

(** U+00A0 and U+2022 in UTF-8, and the bullet label
    [u8" •  "] of list items. *)
Definition nbsp : Str := [ascii_of_nat 194; ascii_of_nat 160].
Definition bullet_glyph : Str := [ascii_of_nat 226; ascii_of_nat 128; ascii_of_nat 162].
Definition bullet : Str := nbsp ++ bullet_glyph ++ nbsp ++ nbsp.

Definition IsDifferentLanguage (current next : ParagraphType.t) : bool :=
  (ParagraphType.eqb current ParagraphType.GDScript
     && ParagraphType.eqb next ParagraphType.CSharpCode)
  || (ParagraphType.eqb current ParagraphType.CSharpCode
        && ParagraphType.eqb next ParagraphType.GDScript).

(** [Title]. *)
Definition Title (title : Str) : Str := "[b]" ++ title ++ ":[/b] ".

(** The [while] loop of [WriteSingleLine] that moves [end] back over spans
    blank after [rtrim]: [x] is the span at [end] and [before] the spans in
    front of it, nearest first. *)
Fixpoint back_over_blank (x : Str) (before : list Str) : Str * list Str :=
  let last := StringRef.rtrim x in
  match before with
  | [] => (last, [])
  | y :: before' =>
      if StringRef.empty last then back_over_blank y before' else (last, before)
  end.

(** One piece of content of [WriteSingleLine]: the first one comes after the
    indentation and the prefix, and is left-trimmed. *)
Definition write_piece (indent_ : nat) (prefix : Str)
    (st : raw_ostream * bool) (str : Str) : raw_ostream * bool :=
  let '(stream, written) := st in
  if written then (EscapeXML stream str, true)
  else (EscapeXML (EscapeXML (indent stream indent_) prefix) (StringRef.ltrim str),
        true).

(** [WriteSingleLine]. *)
Definition WriteSingleLine (stream : raw_ostream) (para : Paragraph)
    (indent_ : nat) (prefix : Str) : raw_ostream * bool :=
  match rev (Data para) with
  | [] => (stream, false)
  | x :: before =>
      let '(last, before) := back_over_blank x before in
      let st :=
        fold_left
          (fun st str =>
             if (0 <? length str)%nat then write_piece indent_ prefix st str else st)
          (rev before) (stream, false) in
      if negb (StringRef.empty last) then write_piece indent_ prefix st last
      else st
  end.

(** [std::min(stripAmount, wsLen)], where [None] is the initial
    [std::numeric_limits<std::size_t>::max()]. *)
Definition size_min (stripAmount : option nat) (wsLen : nat) : option nat :=
  match stripAmount with
  | None => Some wsLen
  | Some a => Some (Nat.min a wsLen)
  end.

(** The first loop of [WriteVerbatim]. *)
Definition strip_amount (data : list Str) : option nat :=
  fold_left
    (fun stripAmount part =>
       match StringRef.find_first_not_of StringRef.whitespace part with
       | Some wsLen => size_min stripAmount wsLen
       | None => stripAmount
       end)
    data None.

(** The body of the second loop of [WriteVerbatim]. *)
Definition write_verbatim_line (indent_ : nat) (stripAmount : option nat)
    (st : raw_ostream * bool) (part : Str) : raw_ostream * bool :=
  let stream := indent (fst st) indent_ in
  match stripAmount with
  | Some a =>
      if (a <? length part)%nat
      then (EscapeXML stream (StringRef.rtrim (StringRef.substr_from part a)) << nl,
            true)
      else (stream << nl, true)
  | None => (stream << nl, true)
  end.

(** [WriteVerbatim]. *)
Definition WriteVerbatim (stream : raw_ostream) (para : Paragraph)
    (indent_ : nat) : raw_ostream * bool :=
  let stripAmount := strip_amount (Data para) in
  fold_left (write_verbatim_line indent_ stripAmount) (Data para) (stream, false).

(** The inner [while] of [Write]: the cursor [next] moved past the empty
    paragraphs. *)
Fixpoint skip_empty (paras : Paragraphs) : Paragraphs :=
  match paras with
  | [] => []
  | p :: rest => if Para.empty p then skip_empty rest else paras
  end.

(** A code paragraph written on its own. *)
Definition write_codeblock (stream : raw_ostream) (it : Paragraph)
    (indent_ : nat) : raw_ostream :=
  let stream :=
    fst (WriteVerbatim
           (ParagraphType.write (indent stream indent_ << "[codeblock lang=")
                                (Type_ it) << "]" << nl)
           it indent_) in
  indent stream indent_ << "[/codeblock]".

(** Two code paragraphs written as one block of alternatives. *)
Definition write_codeblocks (stream : raw_ostream) (it next : Paragraph)
    (indent_ : nat) : raw_ostream :=
  let stream :=
    fst (WriteVerbatim
           (ParagraphType.write
              (indent (indent stream indent_ << "[codeblocks]" << nl) indent_ << "[")
              (Type_ it) << "]" << nl)
           it indent_) in
  let stream :=
    fst (WriteVerbatim
           (ParagraphType.write
              (indent (ParagraphType.write (indent stream indent_ << "[/") (Type_ it)
                         << "]" << nl) indent_ << "[")
              (Type_ next) << "]" << nl)
           next indent_) in
  let stream :=
    ParagraphType.write (indent stream indent_ << "[/") (Type_ next) << "]" << nl in
  indent stream indent_ << "[/codeblocks]".

(** The body of the [for] loop of [Write] at the paragraph [it], followed by
    [rest]: the stream, the flag [newPara], and the paragraphs left after the
    cursor has advanced. *)
Definition Write_step (indent_ : nat) (prefix : Str) (it : Paragraph)
    (rest : Paragraphs) (stream : raw_ostream) (newPara : bool)
  : raw_ostream * bool * Paragraphs :=
  if negb (Para.empty it) then
    let stream := if newPara then stream << nl else stream in
    match Type_ it with
    | ParagraphType.List =>
        (fst (WriteSingleLine stream it indent_ bullet), true, rest)
    | ParagraphType.VerbatimText =>
        let stream :=
          fst (WriteVerbatim (indent stream indent_ << "[codeblock lang=text]" << nl)
                             it indent_) in
        (indent stream indent_ << "[/codeblock]", true, rest)
    | ParagraphType.GDScript | ParagraphType.CSharpCode =>
        match skip_empty rest with
        | next :: after =>
            if IsDifferentLanguage (Type_ it) (Type_ next)
            then (write_codeblocks stream it next indent_, true, after)
            else (write_codeblock stream it indent_, true, rest)
        | [] => (write_codeblock stream it indent_, true, rest)
        end
    | ParagraphType.Normal =>
        let '(stream, written) :=
          WriteSingleLine stream it indent_ (if newPara then [] else prefix) in
        (stream, written || newPara, rest)
    end
  else (stream, newPara, rest).

(** The [for] loop of [Write] from a cursor position. *)
Equations? Write_loop (indent_ : nat) (prefix : Str) (paras : Paragraphs)
    (stream : raw_ostream) (newPara : bool)
  : raw_ostream * bool by wf (length paras) lt :=
  Write_loop indent_ prefix [] stream newPara := (stream, newPara);
  Write_loop indent_ prefix (it :: rest) stream newPara
    with inspect (Write_step indent_ prefix it rest stream newPara) := {
    | exist _ (stream', newPara', rest') Hstep =>
        Write_loop indent_ prefix rest' stream' newPara' }.
Proof.
  clear Write_loop.
  assert (Hskip : forall l, length (skip_empty l) <= length l).
  { induction l as [|p l IH]; simpl; [lia|]. destruct (Para.empty p); simpl; lia. }
  assert (Hrest : length rest' <= length rest); [|lia].
  unfold Write_step in Hstep.
  destruct (negb (Para.empty it)); [|injection Hstep as _ _ <-; lia].
  destruct (Type_ it).
  - destruct (WriteSingleLine _ _ _ _). injection Hstep as _ _ <-; lia.
  - injection Hstep as _ _ <-; lia.
  - injection Hstep as _ _ <-; lia.
  - specialize (Hskip rest). destruct (skip_empty rest) as [|next after].
    + injection Hstep as _ _ <-; lia.
    + destruct (IsDifferentLanguage _ _); injection Hstep as _ _ <-; simpl in Hskip; lia.
  - specialize (Hskip rest). destruct (skip_empty rest) as [|next after].
    + injection Hstep as _ _ <-; lia.
    + destruct (IsDifferentLanguage _ _); injection Hstep as _ _ <-; simpl in Hskip; lia.
Qed.

(** [Write]. *)
Definition Write (stream : raw_ostream) (paras : Paragraphs) (indent_ : nat)
    (prefix : Str) : raw_ostream * bool :=
  Write_loop indent_ prefix paras stream false.

(** * Comment tree

    The nodes of [clang::comments] that the engine inspects, with the
    accessors it calls as fields. *)
#[warnings="-register-all"]
Inductive Comment :=
| BlockCommandComment (CommandName : Str) (Args : list Str) (children : list Comment)
| ParagraphComment (children : list Comment)
| TextComment (Text : Str)
| InlineCommandComment (CommandName : Str) (Args : list Str)
| HTMLStartTagComment
| HTMLEndTagComment
| VerbatimBlockComment (CommandName : Str) (children : list Comment)
| VerbatimBlockLineComment (Text : Str)
| VerbatimLineComment (Text : Str)
| ParamCommandComment (isVarArgParam : bool) (ParamIndex : N) (ParamName : Str)
                      (children : list Comment)
| TParamCommandComment (children : list Comment)
| FullComment (children : list Comment)
| NoneComment.

(** * Inline command expander *)

Definition is_ref_kind (type : Str) : bool :=
  (type == "annotation") || (type == "constant") || (type == "enum")
  || (type == "member") || (type == "method") || (type == "constructor")
  || (type == "signal") || (type == "theme_item").

(** [ParseReference]. *)
Definition ParseReference (ref className : Str) : Str :=
  match StringRef.find ":" ref 0 with
  | Some sep =>
      let type := StringRef.substr ref 0 sep in
      if type == "operator" then
        match StringRef.find "." ref (sep + 1) with
        | Some end_ =>
            "[operator " ++ StringRef.substr ref (sep + 1) (end_ - sep)
              ++ "operator " ++ StringRef.substr_from ref (end_ + 1) ++ "]"
        | None =>
            "[operator " ++ className ++ ".operator "
              ++ StringRef.substr_from ref (sep + 1) ++ "]"
        end
      else if is_ref_kind type then
        match StringRef.find "." ref (sep + 1) with
        | Some _ =>
            "[" ++ type ++ " " ++ StringRef.substr_from ref (sep + 1) ++ "]"
        | None =>
            "[" ++ type ++ " " ++ className ++ "."
              ++ StringRef.substr_from ref (sep + 1) ++ "]"
        end
      else "[" ++ ref ++ "]"
  | None => "[" ++ ref ++ "]"
  end.

(** The [InlineCommandComment] case of [ParseComments]. *)
Definition ParseInlineCommand (className cmd : Str) (args : list Str)
    (result : Paragraph) : Paragraph :=
  let numArgs := length args in
  let arg : Str := if (0 <? numArgs)%nat then nth 0 args [] else [] in
  let result :=
    if cmd == "a" then Para.add_text result ("[param " ++ arg ++ "]")
    else if cmd == "b" then Para.add_text result ("[b]" ++ arg ++ "[/b]")
    else if cmd == "c" then Para.add_text result ("[code]" ++ arg ++ "[/code]")
    else if (cmd == "e") || (cmd == "em") then
      Para.add_text result ("[i]" ++ arg ++ "[/i]")
    else if cmd == "n" then Para.add_text result "[br]"
    else if cmd == "p" then
      Para.add_text result ("[member " ++ className ++ "." ++ arg ++ "]")
    else if cmd == "ref" then Para.add_text result (ParseReference arg className)
    else if negb (StringRef.empty arg) then Para.add_text result arg
    else result in
  if (1 <? numArgs)%nat then
    fold_left (fun result argi => Para.add_text result (" " ++ argi))
              (skipn 1 args) result
  else result.

(** The body of the loop of [ParseComments], at one child. *)
Fixpoint ParseComments_child (className : Str) (result : Paragraph) (c : Comment)
    {struct c} : Paragraph :=
  match c with
  | BlockCommandComment _ _ block =>
      Para.add result
        (fold_left (ParseComments_child className) block
                   (Paragraph_new ParagraphType.Normal))
  | ParagraphComment block =>
      Para.add result
        (fold_left (ParseComments_child className) block
                   (Paragraph_new ParagraphType.Normal))
  | TextComment text => Para.add_text result text
  | InlineCommandComment cmd args => ParseInlineCommand className cmd args result
  | HTMLStartTagComment | HTMLEndTagComment => result
  | VerbatimBlockComment _ _ | VerbatimLineComment _
  | VerbatimBlockLineComment _ | ParamCommandComment _ _ _ _
  | FullComment _ | TParamCommandComment _ | NoneComment => result
  end.

(** [ParseComments], over the children of the node it is given. *)
Definition ParseComments (children : list Comment) (className : Str) : Paragraph :=
  fold_left (ParseComments_child className) children
            (Paragraph_new ParagraphType.Normal).

(** * Comment classifier *)

Record ParsedDocumentation := mkParsedDocumentation {
  Detailed : Paragraphs;
  Brief : Paragraph;
  Author : Paragraphs;
  Copyright : Paragraphs;
  Since : Paragraphs;
  Version : Paragraphs;
  Preconditions : Paragraphs;
  Postconditions : Paragraphs;
  ReturnDesc : Paragraph;
  Deprecated : StatusTag;
  Experimental : StatusTag;
  Tutorials : list Tutorial;
  ParameterDescs : list Parameters;
  ReturnValues : list Parameters
}.

(** [ParsedDocumentation()]: every member default-constructed. *)
Definition ParsedDocumentation_empty : ParsedDocumentation :=
  let para := Paragraph_new ParagraphType.Normal in
  mkParsedDocumentation [] para [] [] [] [] [] [] para
    (mkStatusTag false para) (mkStatusTag false para) [] [] [].

Module Doc.
(** Assignments to one member, the others kept. *)
Definition set_Detailed v d :=
  mkParsedDocumentation v (Brief d) (Author d) (Copyright d) (Since d) (Version d)
    (Preconditions d) (Postconditions d) (ReturnDesc d) (Deprecated d)
    (Experimental d) (Tutorials d) (ParameterDescs d) (ReturnValues d).
Definition set_Brief v d :=
  mkParsedDocumentation (Detailed d) v (Author d) (Copyright d) (Since d) (Version d)
    (Preconditions d) (Postconditions d) (ReturnDesc d) (Deprecated d)
    (Experimental d) (Tutorials d) (ParameterDescs d) (ReturnValues d).
Definition set_Author v d :=
  mkParsedDocumentation (Detailed d) (Brief d) v (Copyright d) (Since d) (Version d)
    (Preconditions d) (Postconditions d) (ReturnDesc d) (Deprecated d)
    (Experimental d) (Tutorials d) (ParameterDescs d) (ReturnValues d).
Definition set_Copyright v d :=
  mkParsedDocumentation (Detailed d) (Brief d) (Author d) v (Since d) (Version d)
    (Preconditions d) (Postconditions d) (ReturnDesc d) (Deprecated d)
    (Experimental d) (Tutorials d) (ParameterDescs d) (ReturnValues d).
Definition set_Since v d :=
  mkParsedDocumentation (Detailed d) (Brief d) (Author d) (Copyright d) v (Version d)
    (Preconditions d) (Postconditions d) (ReturnDesc d) (Deprecated d)
    (Experimental d) (Tutorials d) (ParameterDescs d) (ReturnValues d).
Definition set_Version v d :=
  mkParsedDocumentation (Detailed d) (Brief d) (Author d) (Copyright d) (Since d) v
    (Preconditions d) (Postconditions d) (ReturnDesc d) (Deprecated d)
    (Experimental d) (Tutorials d) (ParameterDescs d) (ReturnValues d).
Definition set_Preconditions v d :=
  mkParsedDocumentation (Detailed d) (Brief d) (Author d) (Copyright d) (Since d)
    (Version d) v (Postconditions d) (ReturnDesc d) (Deprecated d)
    (Experimental d) (Tutorials d) (ParameterDescs d) (ReturnValues d).
Definition set_Postconditions v d :=
  mkParsedDocumentation (Detailed d) (Brief d) (Author d) (Copyright d) (Since d)
    (Version d) (Preconditions d) v (ReturnDesc d) (Deprecated d)
    (Experimental d) (Tutorials d) (ParameterDescs d) (ReturnValues d).
Definition set_ReturnDesc v d :=
  mkParsedDocumentation (Detailed d) (Brief d) (Author d) (Copyright d) (Since d)
    (Version d) (Preconditions d) (Postconditions d) v (Deprecated d)
    (Experimental d) (Tutorials d) (ParameterDescs d) (ReturnValues d).
Definition set_Deprecated v d :=
  mkParsedDocumentation (Detailed d) (Brief d) (Author d) (Copyright d) (Since d)
    (Version d) (Preconditions d) (Postconditions d) (ReturnDesc d) v
    (Experimental d) (Tutorials d) (ParameterDescs d) (ReturnValues d).
Definition set_Experimental v d :=
  mkParsedDocumentation (Detailed d) (Brief d) (Author d) (Copyright d) (Since d)
    (Version d) (Preconditions d) (Postconditions d) (ReturnDesc d) (Deprecated d)
    v (Tutorials d) (ParameterDescs d) (ReturnValues d).
Definition set_Tutorials v d :=
  mkParsedDocumentation (Detailed d) (Brief d) (Author d) (Copyright d) (Since d)
    (Version d) (Preconditions d) (Postconditions d) (ReturnDesc d) (Deprecated d)
    (Experimental d) v (ParameterDescs d) (ReturnValues d).
Definition set_ParameterDescs v d :=
  mkParsedDocumentation (Detailed d) (Brief d) (Author d) (Copyright d) (Since d)
    (Version d) (Preconditions d) (Postconditions d) (ReturnDesc d) (Deprecated d)
    (Experimental d) (Tutorials d) v (ReturnValues d).
Definition set_ReturnValues v d :=
  mkParsedDocumentation (Detailed d) (Brief d) (Author d) (Copyright d) (Since d)
    (Version d) (Preconditions d) (Postconditions d) (ReturnDesc d) (Deprecated d)
    (Experimental d) (Tutorials d) (ParameterDescs d) v.
End Doc.

(** The symbols of the admonition labels, in UTF-8: U+26A0, U+2620, U+2606,
    U+2605, and U+1F5F9 followed by U+FE0E. *)
Definition sym_warning : Str := [ascii_of_nat 226; ascii_of_nat 154; ascii_of_nat 160].
Definition sym_skull : Str := [ascii_of_nat 226; ascii_of_nat 152; ascii_of_nat 160].
Definition sym_white_star : Str := [ascii_of_nat 226; ascii_of_nat 152; ascii_of_nat 134].
Definition sym_black_star : Str := [ascii_of_nat 226; ascii_of_nat 152; ascii_of_nat 133].
Definition sym_ballot : Str :=
  [ascii_of_nat 240; ascii_of_nat 159; ascii_of_nat 151; ascii_of_nat 185;
   ascii_of_nat 239; ascii_of_nat 184; ascii_of_nat 142].

(** The macro [ADMONITION]. *)
Definition ADMONITION (paragraph : Paragraph) (title color symbol : Str) : Paragraph :=
  Para.push_front paragraph
    ("[color=" ++ color ++ "]" ++ nbsp ++ symbol ++ nbsp ++ nbsp ++ "[b]" ++ title
       ++ ":[/b][/color] ").

(** The scan of the [tutorial] case for the first span that is not blank:
    the spans in front of it, the span, and the spans behind it. *)
Fixpoint first_nonblank (data : list Str) : option (list Str * Str * list Str) :=
  match data with
  | [] => None
  | str :: rest =>
      if negb (StringRef.empty (StringRef.ltrim str)) then Some ([], str, rest)
      else
        match first_nonblank rest with
        | Some (before, it, after) => Some (str :: before, it, after)
        | None => None
        end
  end.

(** The [tutorial] case of [ParseBlock]. *)
Definition ParseTutorial (paragraph : Paragraph) (tutorials : list Tutorial)
  : list Tutorial :=
  match first_nonblank (Data paragraph) with
  | Some (before, it, after) =>
      let str := StringRef.trim it in
      match StringRef.find_first_of StringRef.whitespace str 0 with
      | None =>
          tutorials ++ [mkTutorial str (mkParagraph (before ++ after) (Type_ paragraph))]
      | Some pos =>
          tutorials
            ++ [mkTutorial (StringRef.substr str 0 pos)
                  (mkParagraph
                     (before ++ StringRef.ltrim (StringRef.substr_from str (pos + 1))
                        :: after)
                     (Type_ paragraph))]
      end
  | None => tutorials
  end.

(** [ParsedDocumentation::ParseBlock]: the record and the flag [hasBriefTag]
    after the block command [command] with arguments [args] and children
    [block]. *)
Definition ParseBlock (className command : Str) (args : list Str)
    (block : list Comment) (doc : ParsedDocumentation) (hasBriefTag : bool)
  : ParsedDocumentation * bool :=
  let paragraph := ParseComments block className in
  let to_Detailed paragraph :=
    (Doc.set_Detailed (Paragraphs_add (Detailed doc) paragraph) doc, hasBriefTag) in
  if (command == "author") || (command == "authors") then
    (Doc.set_Author (Paragraphs_add (Author doc) paragraph) doc, hasBriefTag)
  else if command == "attention" then
    to_Detailed (ADMONITION paragraph "Attention" "aa6600" sym_warning)
  else if command == "brief" then
    if negb (Para.empty (Brief doc)) then
      if negb hasBriefTag then
        let detailed :=
          if Paragraphs_empty (Detailed doc)
          then Paragraphs_add (Detailed doc) (Brief doc)
          else Brief doc :: Detailed doc in
        (Doc.set_Brief paragraph (Doc.set_Detailed detailed doc), true)
      else (Doc.set_Brief (Para.add (Brief doc) paragraph) doc, true)
    else (Doc.set_Brief paragraph doc, true)
  else if command == "bug" then
    to_Detailed (ADMONITION paragraph "Bug" "dd3311" sym_skull)
  else if command == "copyright" then
    (Doc.set_Copyright (Paragraphs_add (Copyright doc) paragraph) doc, hasBriefTag)
  else if command == "deprecated" then
    (Doc.set_Deprecated (mkStatusTag true paragraph) doc, hasBriefTag)
  else if command == "experimental" then
    (Doc.set_Experimental (mkStatusTag true paragraph) doc, hasBriefTag)
  else if command == "li" then
    to_Detailed (Para.set_Type ParagraphType.List paragraph)
  else if command == "note" then
    to_Detailed (ADMONITION paragraph "Note" "008855" sym_white_star)
  else if command == "remark" then
    to_Detailed (ADMONITION paragraph "Remark" "0077cc" sym_black_star)
  else if command == "since" then
    (Doc.set_Since (Paragraphs_add (Since doc) paragraph) doc, hasBriefTag)
  else if command == "par" then
    to_Detailed
      (if (0 <? length args)%nat
       then Para.push_front paragraph (Title (nth 0 args []))
       else paragraph)
  else if command == "pre" then
    (Doc.set_Preconditions (Paragraphs_add (Preconditions doc) paragraph) doc,
     hasBriefTag)
  else if command == "pos" then
    (Doc.set_Postconditions (Paragraphs_add (Postconditions doc) paragraph) doc,
     hasBriefTag)
  else if (command == "result") || (command == "return") || (command == "returns") then
    (Doc.set_ReturnDesc (Para.add (ReturnDesc doc) paragraph) doc, hasBriefTag)
  else if command == "retval" then
    (Doc.set_ReturnValues
       (ReturnValues doc
          ++ [if (0 <? length args)%nat
              then mkParameters (nth 0 args []) paragraph
              else mkParameters [] paragraph])
       doc,
     hasBriefTag)
  else if command == "todo" then
    to_Detailed (ADMONITION paragraph "TODO" "aa44dd" sym_ballot)
  else if command == "tutorial" then
    (Doc.set_Tutorials (ParseTutorial paragraph (Tutorials doc)) doc, hasBriefTag)
  else if command == "version" then
    (Doc.set_Version (Paragraphs_add (Version doc) paragraph) doc, hasBriefTag)
  else if command == "warning" then
    to_Detailed (ADMONITION paragraph "Warning" "ee0022" sym_warning)
  else to_Detailed paragraph.

(** [dyn_cast<comments::VerbatimBlockLineComment>]. *)
Definition as_VerbatimBlockLine (c : Comment) : option Str :=
  match c with
  | VerbatimBlockLineComment text => Some text
  | _ => None
  end.

(** The search of [ParseVerbatim] for the first line: the line, if any, and
    the children from the cursor [lineIt] on. *)
Fixpoint first_line (lines : list Comment) : option Str * list Comment :=
  match lines with
  | [] => (None, [])
  | c :: rest =>
      match as_VerbatimBlockLine c with
      | Some text => (Some text, lines)
      | None => first_line rest
      end
  end.

(** [ParsedDocumentation::ParseVerbatim]. *)
Definition ParseVerbatim (command : Str) (block : list Comment)
    (doc : ParsedDocumentation) : ParsedDocumentation :=
  let '(paraType, lines) :=
    if command == "code" then
      match first_line block with
      | (Some text, lines) =>
          let codeType := StringRef.trim text in
          if codeType == "{.gd}" then (ParagraphType.GDScript, skipn 1 lines)
          else if codeType == "{.cs}" then (ParagraphType.CSharpCode, skipn 1 lines)
          else (ParagraphType.VerbatimText, lines)
      | (None, lines) => (ParagraphType.VerbatimText, lines)
      end
    else (ParagraphType.VerbatimText, block) in
  let para :=
    fold_left
      (fun para c =>
         match as_VerbatimBlockLine c with
         | Some text => Para.add_text para text
         | None => para
         end)
      lines (Paragraph_new paraType) in
  Doc.set_Detailed (Detailed doc ++ [para]) doc.

(** [unsigned] arithmetic: 32 bits, wrapping. *)
Definition wrap32 (n : N) : N := (n mod 2 ^ 32)%N.

(** [std::vector<Parameters>::resize]. *)
Definition resize (v : list Parameters) (n : nat) : list Parameters :=
  firstn n v ++ repeat Parameters_new (n - length v).

(** Assignment to [v[idx]].  An index out of range is undefined behaviour in
    the source; the model leaves the vector as it is. *)
Fixpoint assign_at (v : list Parameters) (idx : nat) (x : Parameters)
  : list Parameters :=
  match v, idx with
  | [], _ => []
  | _ :: v', 0 => x :: v'
  | y :: v', S idx' => y :: assign_at v' idx' x
  end.

(** The [ParamCommandComment] case of the constructor. *)
Definition ParseParam (className : Str) (idx : N) (name : Str)
    (block : list Comment) (descs : list Parameters) : list Parameters :=
  let descs :=
    if (N.of_nat (length descs) <=? idx)%N
    then resize descs (N.to_nat (wrap32 (idx + 1)))
    else descs in
  assign_at descs (N.to_nat idx) (mkParameters name (ParseComments block className)).

(** The body of the loop of the constructor, at one top-level node. *)
Definition ParseTopLevel (className : Str) (st : ParsedDocumentation * bool)
    (c : Comment) : ParsedDocumentation * bool :=
  let '(doc, hasBriefTag) := st in
  match c with
  | BlockCommandComment command args block =>
      ParseBlock className command args block doc hasBriefTag
  | ParagraphComment block =>
      if negb hasBriefTag && Para.empty (Brief doc)
      then (Doc.set_Brief (ParseComments block className) doc, hasBriefTag)
      else (Doc.set_Detailed
              (Paragraphs_add (Detailed doc) (ParseComments block className)) doc,
            hasBriefTag)
  | VerbatimBlockComment command block => (ParseVerbatim command block doc, hasBriefTag)
  | VerbatimLineComment text =>
      (Doc.set_Detailed
         (Detailed doc
            ++ [Para.add_text (Paragraph_new ParagraphType.VerbatimText)
                              (StringRef.trim text)])
         doc,
       hasBriefTag)
  | ParamCommandComment isVarArgParam idx name block =>
      if negb isVarArgParam
      then (Doc.set_ParameterDescs
              (ParseParam className idx name block (ParameterDescs doc)) doc,
            hasBriefTag)
      else (doc, hasBriefTag)
  | _ => (doc, hasBriefTag)
  end.

(** [ParsedDocumentation::ParsedDocumentation(className, doc, traits)].  The
    local [bool hasBriefTag;] is declared without an initialiser, so the value
    of its first read is indeterminate: the model takes it as the parameter
    [hasBriefTag0].  [doc] is [None] for a null pointer, else the children of
    the full comment. *)
Definition ParsedDocumentation_of (hasBriefTag0 : bool) (className : Str)
    (doc : option (list Comment)) : ParsedDocumentation :=
  match doc with
  | Some children =>
      fst (fold_left (ParseTopLevel className) children
                     (ParsedDocumentation_empty, hasBriefTag0))
  | None => ParsedDocumentation_empty
  end.

(** * Vocabulary of the properties *)

(** The reference kinds that [ParseReference] resolves. *)
Definition recognized_kinds : list Str :=
  ["operator" : Str; "annotation" : Str; "constant" : Str; "enum" : Str;
   "member" : Str; "method" : Str; "constructor" : Str; "signal" : Str;
   "theme_item" : Str].

(** The inline commands that the expander knows by name. *)
Definition recognized_inline : list Str :=
  ["a" : Str; "b" : Str; "c" : Str; "e" : Str; "em" : Str; "n" : Str;
   "p" : Str; "ref" : Str].

(** [n] spaces, as [raw_ostream::indent] writes them. *)
Definition spaces (n : nat) : Str := repeat " "%char n.

(** The name that [operator<<] writes for a paragraph type. *)
Definition language_name (type : ParagraphType.t) : Str :=
  ParagraphType.write [] type.

(** A span is blank when nothing is left of it after trimming. *)
Definition blank (s : Str) : bool := StringRef.empty (StringRef.ltrim s).

(** The number of whitespace bytes a line begins with. *)
Fixpoint leading_ws (s : Str) : nat :=
  match s with
  | [] => 0
  | c :: s' => if StringRef.is_space c then S (leading_ws s') else 0
  end.

(** What is left of a line of a verbatim paragraph once [stripAmount] has
    been taken off it. *)
Definition stripped_line (stripAmount : option nat) (part : Str) : Str :=
  match stripAmount with
  | Some a =>
      if (a <? length part)%nat then StringRef.rtrim (skipn a part) else []
  | None => []
  end.

(** The text of a verbatim paragraph: its lines, indented, stripped, escaped
    and ended by a line feed. *)
Definition verbatim_text (indent_ : nat) (data : list Str) : Str :=
  concat (map (fun part =>
                 spaces indent_ ++ escape_spec (stripped_line (strip_amount data) part)
                   ++ nl)
              data).

(** Common-indentation stripping as the specification words it: the minimum
    of the leading whitespace over all the lines, taken off every line. *)
Definition min_leading_ws_all (data : list Str) : nat :=
  match data with
  | [] => 0
  | part :: rest => fold_left Nat.min (map leading_ws rest) (leading_ws part)
  end.

Definition verbatim_text_all_lines (indent_ : nat) (data : list Str) : Str :=
  concat (map (fun part =>
                 spaces indent_ ++ escape_spec (skipn (min_leading_ws_all data) part)
                   ++ nl)
              data).

(** * Renderer: sections, records and attributes *)

(** [WriteOptionalSection]: the stream and the flag [newPara], which the
    source updates through a reference. *)
Definition WriteOptionalSection (os : raw_ostream) (newPara : bool) (title : Str)
    (paragraphs : Paragraphs) (indent_ : nat) : raw_ostream * bool :=
  if negb (Paragraphs_empty paragraphs) then
    let os := if newPara then os << nl else os in
    (fst (Write os paragraphs indent_ (Title title)), true)
  else (os, newPara).

(** The loops of [WriteDetailed] over the parameter descriptions and over
    the return values: one bulleted line for each, behind a line feed. *)
Definition write_parameters (os : raw_ostream) (params : list Parameters)
    (indent_ : nat) : raw_ostream :=
  fold_left
    (fun os param =>
       fst (WriteSingleLine (os << nl) (Description param) indent_
              (bullet ++ "[b][code]" ++ Name param ++ "[/code]:[/b] ")))
    params os.

(** [std::vector<Parameters>::empty]. *)
Definition Parameters_empty (v : list Parameters) : bool :=
  match v with [] => true | _ :: _ => false end.

(** The part of [WriteDetailed] under [if(printFunctionInfo)]. *)
Definition write_function_info (doc : ParsedDocumentation) (os : raw_ostream)
    (newPara : bool) (indent_ : nat) : raw_ostream * bool :=
  let '(os, newPara) :=
    WriteOptionalSection os newPara "Preconditions" (Preconditions doc) indent_ in
  let '(os, newPara) :=
    WriteOptionalSection os newPara "Postconditions" (Postconditions doc) indent_ in
  let '(os, newPara) :=
    if negb (Parameters_empty (ParameterDescs doc)) then
      let os := if newPara then os << nl else os in
      let os := indent os indent_ << Title "Parameters" in
      (write_parameters os (ParameterDescs doc) indent_, true)
    else (os, newPara) in
  let '(os, newPara) :=
    if negb (Para.empty (ReturnDesc doc)) then
      let os := if newPara then os << nl else os in
      (fst (WriteSingleLine os (ReturnDesc doc) indent_ (Title "Return")), true)
    else (os, newPara) in
  if negb (Parameters_empty (ReturnValues doc)) then
    let newPara := true in
    let os :=
      if Para.empty (ReturnDesc doc) then
        let os := if newPara then os << nl else os in
        indent os indent_ << Title "Return"
      else os in
    (write_parameters os (ReturnValues doc) indent_, newPara)
  else (os, newPara).

(** [ParsedDocumentation::WriteDetailed]. *)
Definition WriteDetailed (doc : ParsedDocumentation) (os : raw_ostream)
    (printBrief printFunctionInfo : bool) (indent_ : nat) : raw_ostream :=
  let '(os, newPara) :=
    if printBrief && negb (Para.empty (Brief doc))
    then (fst (WriteSingleLine os (Brief doc) indent_ []), true)
    else (os, false) in
  let hasDetail := existsb (fun para => negb (Para.empty para)) (Detailed doc) in
  let '(os, newPara) :=
    if hasDetail then
      let os := if newPara then os << nl else os in
      (fst (Write os (Detailed doc) indent_ []), true)
    else (os, newPara) in
  let '(os, newPara) := WriteOptionalSection os newPara "Since" (Since doc) indent_ in
  let '(os, newPara) :=
    if printFunctionInfo then write_function_info doc os newPara indent_
    else (os, newPara) in
  let '(os, newPara) := WriteOptionalSection os newPara "Authors" (Author doc) indent_ in
  let '(os, newPara) := WriteOptionalSection os newPara "Version" (Version doc) indent_ in
  let '(os, newPara) :=
    WriteOptionalSection os newPara "Copyright" (Copyright doc) indent_ in
  os.

(** One status attribute of [WriteAttributes]: the key with its blank in
    front, and the message as a single line between double quotes. *)
Definition write_status (os : raw_ostream) (key : Str) (tag : StatusTag)
  : raw_ostream :=
  if IsTagPresent tag then
    fst (WriteSingleLine (os << key << [quot]) (Message tag) 0 []) << [quot]
  else os.

(** [ParsedDocumentation::WriteAttributes]. *)
Definition WriteAttributes (doc : ParsedDocumentation) (os : raw_ostream)
  : raw_ostream :=
  let os := write_status os " deprecated=" (Deprecated doc) in
  write_status os " experimental=" (Experimental doc).

(** * Further vocabulary *)

(** The command names that [ParseBlock] tells apart. *)
Definition known_block_commands : list Str :=
  ["author" : Str; "authors" : Str; "attention" : Str; "brief" : Str; "bug" : Str;
   "copyright" : Str; "deprecated" : Str; "experimental" : Str; "li" : Str;
   "note" : Str; "remark" : Str; "since" : Str; "par" : Str; "pre" : Str;
   "pos" : Str; "result" : Str; "return" : Str; "returns" : Str; "retval" : Str;
   "todo" : Str; "tutorial" : Str; "version" : Str; "warning" : Str].

(** The reference kinds other than [operator]. *)
Definition member_kinds : list Str :=
  ["annotation" : Str; "constant" : Str; "enum" : Str; "member" : Str;
   "method" : Str; "constructor" : Str; "signal" : Str; "theme_item" : Str].

(** The pieces of a single line joined, the first piece that has bytes
    left-trimmed. *)
Fixpoint ltrim_first (pieces : list Str) : Str :=
  match pieces with
  | [] => []
  | s :: rest =>
      match s with
      | [] => ltrim_first rest
      | _ :: _ => StringRef.ltrim s ++ concat rest
      end
  end.

(** The spans of a paragraph without the blank ones at its end, nearest the
    end first. *)
Fixpoint drop_blank (rev_data : list Str) : list Str :=
  match rev_data with
  | [] => []
  | x :: before => if blank x then drop_blank before else rev_data
  end.

(** The text of a paragraph as a single line: the blank spans at the end
    dropped, the last span that is left right-trimmed, the first piece with
    bytes left-trimmed. *)
Definition single_line_text (data : list Str) : Str :=
  match drop_blank (rev data) with
  | [] => []
  | x :: before => ltrim_first (rev before ++ [StringRef.rtrim x])
  end.

(** The kinds of top-level node for which the constructor does nothing. *)
Definition ignored_top_level (c : Comment) : bool :=
  match c with
  | BlockCommandComment _ _ _ | ParagraphComment _ | VerbatimBlockComment _ _
  | VerbatimLineComment _ => false
  | ParamCommandComment isVarArgParam _ _ _ => isVarArgParam
  | _ => true
  end.

(** Every paragraph of a sequence is of the kind [Normal]. *)
Definition all_Normal (paras : Paragraphs) : Prop :=
  Forall (fun p => Type_ p = ParagraphType.Normal) paras.

(** The titled sections, the brief and return descriptions and the status
    messages of a record hold paragraphs of the kind [Normal] only. *)
Definition sections_Normal (doc : ParsedDocumentation) : Prop :=
  Type_ (Brief doc) = ParagraphType.Normal
  /\ Type_ (ReturnDesc doc) = ParagraphType.Normal
  /\ Type_ (Message (Deprecated doc)) = ParagraphType.Normal
  /\ Type_ (Message (Experimental doc)) = ParagraphType.Normal
  /\ all_Normal (Author doc) /\ all_Normal (Copyright doc)
  /\ all_Normal (Since doc) /\ all_Normal (Version doc)
  /\ all_Normal (Preconditions doc) /\ all_Normal (Postconditions doc)
  /\ Forall (fun t => Type_ (Title_ t) = ParagraphType.Normal) (Tutorials doc)
  /\ Forall (fun v => Type_ (Description v) = ParagraphType.Normal) (ReturnValues doc).

(** The [tutorial] entry as the specification words it: the first span that
    is not blank, trimmed, is split at its first run of whitespace into a URL
    and a remaining fragment, and the entry holds that URL and, as its title,
    that fragment (no span at all when the fragment is empty). *)
Definition split_first_whitespace (str : Str) : Str * Str :=
  match StringRef.find_first_of StringRef.whitespace str 0 with
  | Some pos =>
      (StringRef.substr str 0 pos,
       StringRef.ltrim (StringRef.substr_from str (pos + 1)))
  | None => (str, [])
  end.

Definition tutorial_as_worded (paragraph : Paragraph) : option Tutorial :=
  match first_nonblank (Data paragraph) with
  | Some (_, span, _) =>
      let '(url, fragment) := split_first_whitespace (StringRef.trim span) in
      Some (mkTutorial url
              (mkParagraph (if StringRef.empty fragment then [] else [fragment])
                           (Type_ paragraph)))
  | None => None
  end.

(** A URL that can stand in a link: it has bytes, and none of them is
    whitespace. *)
Definition usable_URL (t : Tutorial) : Prop :=
  URL t <> [] /\ forallb (fun c => negb (StringRef.is_space c)) (URL t) = true.

(** * Properties *)

(** ** The model on small inputs *)

Example ParseReference_period_keeps_owner :
  ParseReference "signal:Timer.timeout" "Player" = "[signal Timer.timeout]".
Proof. reflexivity. Qed.

Example ParseReference_operator_of_owner :
  ParseReference "operator:*" "Vector2" = "[operator Vector2.operator *]".
Proof. reflexivity. Qed.

Example EscapeXML_plain_text : EscapeXML "x=" "a < b" = "x=a &lt; b".
Proof. reflexivity. Qed.

Example push_front_trims_next_span :
  Para.push_front (mkParagraph ["  text" : Str; " more" : Str] ParagraphType.Normal)
                  "[b]T:[/b] "
  = mkParagraph ["[b]T:[/b] " : Str; "text" : Str; " more" : Str] ParagraphType.Normal.
Proof. reflexivity. Qed.

Example WriteSingleLine_trims_ends :
  WriteSingleLine [] (mkParagraph [" one" : Str; " two " : Str; "  " : Str]
                                  ParagraphType.Normal) 2 "L:"
  = ("  L:one two" : Str, true).
Proof. reflexivity. Qed.

Example Write_code_then_text :
  fst (Write [] [mkParagraph ["  x = 1" : Str] ParagraphType.GDScript;
                 mkParagraph ["done" : Str] ParagraphType.Normal] 0 [])
  = "[codeblock lang=gdscript]" ++ nl ++ "x = 1" ++ nl ++ "[/codeblock]" ++ nl ++ "done".
Proof. reflexivity. Qed.

Example ParseVerbatim_language_marker :
  Detailed (ParseVerbatim "code"
              [VerbatimBlockLineComment " {.cs} "; VerbatimBlockLineComment "int x;"]
              ParsedDocumentation_empty)
  = [mkParagraph ["int x;" : Str] ParagraphType.CSharpCode].
Proof. reflexivity. Qed.

(** ** Searching in strings *)

Lemma find_if_None p s :
  StringRef.find_if p s = None -> forallb (fun c => negb (p c)) s = true.
Proof.
  induction s as [|c s IH]; simpl; [reflexivity|].
  destruct (p c); [discriminate|].
  destruct (StringRef.find_if p s); [discriminate|]. intros _. now apply IH.
Qed.

Lemma find_if_Some p s n :
  StringRef.find_if p s = Some n ->
  exists c, s = firstn n s ++ c :: skipn (S n) s /\ p c = true
            /\ forallb (fun c => negb (p c)) (firstn n s) = true.
Proof.
  revert n; induction s as [|c s IH]; simpl; intros n; [discriminate|].
  destruct (p c) eqn:Hc.
  - intros [= <-]. exists c. simpl. auto.
  - destruct (StringRef.find_if p s) as [m|]; simpl; [intros [= <-]|discriminate].
    destruct (IH m eq_refl) as (c' & Hs & Hp & Hall).
    exists c'. simpl. rewrite Hc, Hall. simpl. repeat split; auto.
    f_equal. exact Hs.
Qed.

Lemma find_if_lt p s n : StringRef.find_if p s = Some n -> n < length s.
Proof.
  intros H. destruct (find_if_Some _ _ _ H) as (c & Hs & _).
  apply (f_equal (@length _)) in Hs.
  rewrite length_app in Hs. simpl in Hs. rewrite length_firstn in Hs. lia.
Qed.

Lemma find_from_Some p s from pos :
  StringRef.find_from p s from = Some pos ->
  from <= pos < length s /\
  exists c, skipn from s = StringRef.substr s from (pos - from) ++ c :: skipn (pos + 1) s
            /\ nth pos s zero = c /\ p c = true
            /\ forallb (fun c => negb (p c)) (StringRef.substr s from (pos - from)) = true.
Proof.
  unfold StringRef.find_from, StringRef.substr.
  destruct (StringRef.find_if p (skipn from s)) as [m|] eqn:E; simpl; [intros [= <-]|discriminate].
  pose proof (find_if_lt _ _ _ E) as Hlt. rewrite length_skipn in Hlt.
  destruct (find_if_Some _ _ _ E) as (c & Hs & Hp & Hall).
  replace (from + m - from) with m by lia.
  split; [lia|]. exists c. rewrite skipn_skipn in Hs.
  replace (from + m + 1) with (S m + from) by lia.
  repeat split; auto.
  rewrite <- (firstn_skipn from s) at 1.
  rewrite app_nth2; rewrite length_firstn; [|lia].
  replace (from + m - Nat.min from (length s)) with m by lia.
  rewrite Hs at 1. rewrite app_nth2; rewrite length_firstn, length_skipn; [|lia].
  replace (m - Nat.min m (length s - from)) with 0 by lia. reflexivity.
Qed.

Lemma find_from_None p s from :
  StringRef.find_from p s from = None ->
  forallb (fun c => negb (p c)) (skipn from s) = true.
Proof.
  unfold StringRef.find_from.
  destruct (StringRef.find_if p (skipn from s)) eqn:E; simpl; [discriminate|].
  intros _. now apply find_if_None.
Qed.

(** ** Escaping *)

Lemma escape_spec_plain s :
  forallb (fun c => negb (StringRef.in_chars c g_special)) s = true ->
  escape_spec s = s.
Proof.
  induction s as [|c s IH]; simpl; [reflexivity|].
  intros H. apply andb_prop in H as [Hc Hs].
  unfold escape_spec in *. simpl. rewrite (IH Hs).
  unfold StringRef.in_chars, g_special in Hc. simpl in Hc.
  unfold escape_char_spec.
  destruct (Ascii.eqb c quot); [discriminate|].
  destruct (Ascii.eqb c apos); [discriminate|].
  destruct (Ascii.eqb c "<"); [discriminate|].
  destruct (Ascii.eqb c ">"); [discriminate|].
  destruct (Ascii.eqb c "&"); [discriminate|]. reflexivity.
Qed.

Lemma entity_special c :
  StringRef.in_chars c g_special = true -> entity c = escape_char_spec c.
Proof.
  unfold StringRef.in_chars, g_special, entity, escape_char_spec. simpl.
  destruct (Ascii.eqb c quot); [reflexivity|].
  destruct (Ascii.eqb c apos); [reflexivity|].
  destruct (Ascii.eqb c "<"); [reflexivity|].
  destruct (Ascii.eqb c ">"); [reflexivity|].
  destruct (Ascii.eqb c "&"); [reflexivity|]. discriminate.
Qed.

Lemma escape_spec_app s t : escape_spec (s ++ t) = escape_spec s ++ escape_spec t.
Proof. apply flat_map_app. Qed.

Lemma XMLEscape_loop_spec s start os :
  XMLEscape_loop s start os = os ++ escape_spec (skipn start s).
Proof.
  funelim (XMLEscape_loop s start os).
  - clear Heqcall. rewrite H. clear H.
    destruct (find_from_Some _ _ _ _ Hpos) as (Hb & c & Hs & Hn & Hc & Hall).
    rewrite Hs, Hn, escape_spec_app, (escape_spec_plain _ Hall).
    change (c :: skipn (pos + 1) s) with ([c] ++ skipn (pos + 1) s).
    rewrite escape_spec_app. unfold escape_spec at 2. simpl. rewrite app_nil_r.
    rewrite (entity_special _ Hc). unfold put. now rewrite <- !app_assoc.
  - unfold put, StringRef.substr_from. f_equal. symmetry.
    apply escape_spec_plain. now apply find_from_None.
Qed.

(** C4. Escaping writes, for every byte of the input in order, [&quot;] for
    the double quote, [&apos;] for the apostrophe, [&lt;] for [<], [&gt;] for
    [>], [&amp;] for [&], and the byte itself otherwise; the text [<a>&'b']
    inside double quotes comes out with its five kinds of entities. *)
Theorem EscapeXML_escapes_bytewise :
  (forall os str, EscapeXML os str = os ++ escape_spec str)
  /\ (forall c, escape_char_spec c =
        if Ascii.eqb c quot then "&quot;" : Str
        else if Ascii.eqb c apos then "&apos;" : Str
        else if Ascii.eqb c "<" then "&lt;" : Str
        else if Ascii.eqb c ">" then "&gt;" : Str
        else if Ascii.eqb c "&" then "&amp;" : Str
        else [c])
  /\ EscapeXML [] (quot :: "<a>&'b'" ++ [quot])
     = "&quot;&lt;a&gt;&amp;&apos;b&apos;&quot;".
Proof.
  split; [|split].
  - intros os str. unfold EscapeXML. now rewrite XMLEscape_loop_spec.
  - reflexivity.
  - reflexivity.
Qed.

(** ** Equality tests *)

(** Closes [~ In x l] for a closed [x] and a closed list [l]. *)
Ltac not_in_closed_list :=
  let H := fresh "H" in
  simpl; intros H; repeat (destruct H as [H|H]; [discriminate H|]); exact H.

Lemma Str_eqb_eq a b : (a == b) = true <-> a = b.
Proof.
  revert b; induction a as [|x a IH]; intros [|y b]; simpl; split;
    try discriminate; try reflexivity.
  - intros H. apply andb_prop in H as [Hx Ha].
    apply Ascii.eqb_eq in Hx. apply IH in Ha. now subst.
  - intros [= -> ->]. rewrite Ascii.eqb_refl. simpl. now apply IH.
Qed.

Lemma Str_eqb_neq a b : a <> b -> (a == b) = false.
Proof.
  intros H. destruct (a == b) eqn:E; [|reflexivity].
  apply Str_eqb_eq in E. contradiction.
Qed.

Lemma ParagraphType_eqb_eq a b : ParagraphType.eqb a b = true <-> a = b.
Proof. destruct a, b; simpl; split; intros H; try reflexivity; discriminate. Qed.

(** ** Reference resolution *)

Lemma find_if_app_first p s c rest :
  forallb (fun x => negb (p x)) s = true -> p c = true ->
  StringRef.find_if p (s ++ c :: rest) = Some (length s).
Proof.
  intros Hs Hc. induction s as [|x s IH]; cbn [StringRef.find_if app length].
  - now rewrite Hc.
  - cbn [forallb] in Hs. apply andb_prop in Hs as [Hx Hs].
    destruct (p x); [discriminate|]. now rewrite (IH Hs).
Qed.

Lemma find_if_all_false p s :
  forallb (fun x => negb (p x)) s = true -> StringRef.find_if p s = None.
Proof.
  induction s as [|x s IH]; cbn [StringRef.find_if forallb]; [reflexivity|].
  intros Hs. apply andb_prop in Hs as [Hx Hs].
  destruct (p x); [discriminate|]. now rewrite (IH Hs).
Qed.

Lemma notin_forallb c s :
  ~ In c s -> forallb (fun x => negb (Ascii.eqb c x)) s = true.
Proof.
  induction s as [|x s IH]; cbn [forallb In]; [reflexivity|].
  intros Hn. rewrite IH by tauto.
  destruct (Ascii.eqb c x) eqn:E; [|reflexivity].
  apply Ascii.eqb_eq in E. subst. tauto.
Qed.

Lemma find_first_colon kind rest :
  ~ In ":"%char kind ->
  StringRef.find ":" (kind ++ ":"%char :: rest) 0 = Some (length kind).
Proof.
  intros Hn. unfold StringRef.find, StringRef.find_from. cbn [skipn].
  rewrite (find_if_app_first _ _ _ _ (notin_forallb _ _ Hn) (Ascii.eqb_refl _)).
  reflexivity.
Qed.

Lemma find_no_colon ref :
  ~ In ":"%char ref -> StringRef.find ":" ref 0 = None.
Proof.
  intros Hn. unfold StringRef.find, StringRef.find_from. cbn [skipn].
  now rewrite (find_if_all_false _ _ (notin_forallb _ _ Hn)).
Qed.

(** C2. [ref member:Color.r] resolves to [[member Color.r]], [ref method:jump]
    to [[method Player.jump]] for the owner [Player], [ref operator:Vector2.+]
    to [[operator Vector2.operator +]]; a token without a colon, and a token
    whose kind (the text before its first colon) is not one that is resolved,
    comes out between brackets as it is.  The expander hands the argument of
    [ref] to this resolution. *)
Theorem ParseReference_resolves (className ref kind rest : Str) (result : Paragraph) :
  ParseReference "member:Color.r" "Color" = "[member Color.r]"
  /\ ParseReference "method:jump" "Player" = "[method Player.jump]"
  /\ ParseReference "operator:Vector2.+" "Vector2" = "[operator Vector2.operator +]"
  /\ (~ In ":"%char ref -> ParseReference ref className = "[" ++ ref ++ "]")
  /\ (~ In ":"%char kind -> ~ In kind recognized_kinds ->
      ParseReference (kind ++ ":" ++ rest) className = "[" ++ kind ++ ":" ++ rest ++ "]")
  /\ ParseInlineCommand className "ref" [ref] result
     = Para.add_text result (ParseReference ref className).
Proof.
  repeat split; try reflexivity.
  - intros Hn. unfold ParseReference. now rewrite (find_no_colon _ Hn).
  - intros Hn Hk. unfold ParseReference.
    change (kind ++ ":" ++ rest) with (kind ++ ":"%char :: rest).
    rewrite (find_first_colon _ _ Hn).
    assert (Hsub : StringRef.substr (kind ++ ":"%char :: rest) 0 (length kind) = kind).
    { unfold StringRef.substr. simpl skipn.
      rewrite firstn_app, firstn_all, Nat.sub_diag. simpl. apply app_nil_r. }
    rewrite Hsub.
    assert (Hneq : forall k, In k recognized_kinds -> (kind == k) = false).
    { intros k Hin. apply Str_eqb_neq. intros ->. contradiction. }
    unfold is_ref_kind.
    rewrite !Hneq by (unfold recognized_kinds; simpl; tauto).
    cbn [orb]. now rewrite <- app_assoc.
Qed.

Lemma ParseReference_resolves_witness :
  ParseReference "see_also" "Player" = "[see_also]"
  /\ ParseReference "class:Node" "Player" = "[class:Node]".
Proof.
  pose proof (ParseReference_resolves "Player" "see_also" "class" "Node"
                (Paragraph_new ParagraphType.Normal))
    as (_ & _ & _ & Hplain & Hkind & _).
  split.
  - apply Hplain. not_in_closed_list.
  - apply Hkind; not_in_closed_list.
Defined.

(** ** Appending paragraphs *)

(** C7. Appending a paragraph of another kind leaves the paragraph as it
    was, kind and spans; the operation is total, so nothing is raised. *)
Theorem Paragraph_add_kind_mismatch (para text : Paragraph) :
  Type_ para <> Type_ text ->
  Para.add para text = para
  /\ Type_ (Para.add para text) = Type_ para
  /\ Data (Para.add para text) = Data para.
Proof.
  intros Hne. unfold Para.add.
  destruct (ParagraphType.eqb (Type_ para) (Type_ text)) eqn:E.
  - apply ParagraphType_eqb_eq in E. contradiction.
  - auto.
Qed.

Lemma Paragraph_add_kind_mismatch_witness :
  Para.add (mkParagraph ["kept" : Str] ParagraphType.Normal)
           (mkParagraph ["dropped" : Str] ParagraphType.List)
  = mkParagraph ["kept" : Str] ParagraphType.Normal.
Proof.
  apply (Paragraph_add_kind_mismatch
           (mkParagraph ["kept" : Str] ParagraphType.Normal)
           (mkParagraph ["dropped" : Str] ParagraphType.List)).
  simpl. discriminate.
Defined.

(** ** Inline commands *)

Lemma fold_add_text (f : Str -> Str) args result :
  fold_left (fun result argi => Para.add_text result (f argi)) args result
  = mkParagraph (Data result ++ map f args) (Type_ result).
Proof.
  revert result; induction args as [|a args IH]; intros result; simpl.
  - rewrite app_nil_r. now destruct result.
  - rewrite IH. simpl. now rewrite <- app_assoc.
Qed.

(** C10. Whatever the command, recognized or not, each argument after the
    first is appended as a span of its own, a space followed by the argument;
    an unrecognized command whose first argument is empty adds nothing for
    that argument. *)
Theorem ParseInlineCommand_further_args (className cmd arg0 arg1 : Str)
    (more : list Str) (result : Paragraph) :
  ParseInlineCommand className cmd (arg0 :: arg1 :: more) result
  = mkParagraph
      (Data (ParseInlineCommand className cmd [arg0] result)
         ++ map (fun argi => " " ++ argi) (arg1 :: more))
      (Type_ result)
  /\ (~ In cmd recognized_inline ->
      ParseInlineCommand className cmd [[]] result = result
      /\ ParseInlineCommand className cmd ([] :: arg1 :: more) result
         = mkParagraph (Data result ++ map (fun argi => " " ++ argi) (arg1 :: more))
                       (Type_ result)).
Proof.
  split.
  - unfold ParseInlineCommand.
    change (1 <? length (arg0 :: arg1 :: more))%nat with true.
    change (1 <? length [arg0])%nat with false.
    change (0 <? length (arg0 :: arg1 :: more))%nat with true.
    change (0 <? length [arg0])%nat with true.
    cbv iota. rewrite fold_add_text. f_equal.
    repeat match goal with
           | |- context [if ?b then _ else _] => destruct b
           end; reflexivity.
  - intros Hn.
    assert (Hneq : forall k, In k recognized_inline -> (cmd == k) = false).
    { intros k Hin. apply Str_eqb_neq. intros ->. contradiction. }
    unfold ParseInlineCommand.
    change (1 <? length ([] :: arg1 :: more))%nat with true.
    change (1 <? length [@nil ascii])%nat with false.
    cbv iota. rewrite fold_add_text.
    rewrite !Hneq by (unfold recognized_inline; simpl; tauto).
    simpl. split; reflexivity.
Qed.

Lemma ParseInlineCommand_further_args_witness :
  ParseInlineCommand "Player" "emoji" ([] :: ["smile" : Str])
                     (Paragraph_new ParagraphType.Normal)
  = mkParagraph [" smile" : Str] ParagraphType.Normal.
Proof.
  refine (proj2 (proj2 (ParseInlineCommand_further_args "Player" "emoji" [] "smile" []
                   (Paragraph_new ParagraphType.Normal)) _)).
  not_in_closed_list.
Defined.

(** ** Whitespace *)

Lemma ltrim_nil_iff s :
  StringRef.ltrim s = [] <-> forallb StringRef.is_space s = true.
Proof.
  induction s as [|c s IH]; cbn [StringRef.ltrim forallb]; [tauto|].
  destruct (StringRef.is_space c); cbn [andb]; [exact IH|].
  split; discriminate.
Qed.

Lemma blank_iff s : blank s = true <-> forallb StringRef.is_space s = true.
Proof.
  unfold blank. rewrite <- ltrim_nil_iff.
  destruct (StringRef.ltrim s); simpl; split; congruence.
Qed.

Lemma forallb_rev {A} (p : A -> bool) l : forallb p (rev l) = forallb p l.
Proof.
  induction l as [|x l IH]; simpl; [reflexivity|].
  rewrite forallb_app, IH. simpl. rewrite andb_true_r. apply andb_comm.
Qed.

Lemma rtrim_blank s : blank s = true -> StringRef.rtrim s = [].
Proof.
  intros H. apply blank_iff in H. unfold StringRef.rtrim.
  assert (E : StringRef.ltrim (rev s) = []).
  { apply ltrim_nil_iff. now rewrite forallb_rev. }
  now rewrite E.
Qed.

Lemma rtrim_not_blank s :
  blank s = false -> StringRef.empty (StringRef.rtrim s) = false.
Proof.
  intros H. unfold StringRef.rtrim.
  destruct (StringRef.ltrim (rev s)) as [|c t] eqn:E.
  - apply ltrim_nil_iff in E. rewrite forallb_rev in E.
    apply blank_iff in E. congruence.
  - simpl. destruct (rev t ++ [c]) eqn:E'; [|reflexivity].
    now apply app_eq_nil in E' as [_ E'].
Qed.

Lemma find_first_not_of_ws part :
  StringRef.find_first_not_of StringRef.whitespace part
  = if blank part then None else Some (leading_ws part).
Proof.
  unfold StringRef.find_first_not_of, StringRef.find_from, blank. cbn [skipn].
  induction part as [|c part IH]; cbn [StringRef.find_if StringRef.ltrim leading_ws];
    [reflexivity|].
  change (StringRef.in_chars c StringRef.whitespace) with (StringRef.is_space c).
  destruct (StringRef.is_space c); cbn [negb]; [|reflexivity].
  destruct (StringRef.find_if _ part) as [n|]; cbn [option_map] in *;
    destruct (StringRef.empty (StringRef.ltrim part)); try discriminate;
    [|reflexivity].
  injection IH as IH. cbn in IH. now rewrite IH.
Qed.

Lemma leading_ws_lt part : blank part = false -> leading_ws part < length part.
Proof.
  unfold blank. induction part as [|c part IH]; cbn [StringRef.ltrim leading_ws length];
    [discriminate|].
  destruct (StringRef.is_space c); [|lia]. intros H. specialize (IH H). lia.
Qed.

Lemma leading_ws_skipn a part :
  a <= leading_ws part ->
  leading_ws (skipn a part) = leading_ws part - a
  /\ forallb StringRef.is_space (firstn a part) = true.
Proof.
  revert part; induction a as [|a IH]; intros part Ha.
  - cbn [skipn firstn forallb]. split; [lia|reflexivity].
  - destruct part as [|c part]; cbn [leading_ws] in Ha; [lia|].
    cbn [skipn firstn forallb leading_ws].
    destruct (StringRef.is_space c); [|lia].
    destruct (IH part ltac:(lia)) as [H1 H2]. rewrite H1, H2. split; [lia|reflexivity].
Qed.

(** ** The stripping amount *)

Lemma strip_amount_fold data acc :
  let f := fun stripAmount part =>
             match StringRef.find_first_not_of StringRef.whitespace part with
             | Some wsLen => size_min stripAmount wsLen
             | None => stripAmount
             end in
  match fold_left f data acc with
  | None => acc = None /\ forallb blank data = true
  | Some a =>
      (acc = Some a \/ exists part, In part data /\ blank part = false /\ leading_ws part = a)
      /\ (forall b, acc = Some b -> a <= b)
      /\ (forall part, In part data -> blank part = false -> a <= leading_ws part)
  end.
Proof.
  intros f. revert acc; induction data as [|part data IH]; intros acc; cbn [fold_left].
  - destruct acc as [a|]; cbn; [|auto].
    repeat split; [now left| |intros ? []]. now intros b [= ->].
  - specialize (IH (f acc part)).
    destruct (fold_left f data (f acc part)) as [a|].
    + destruct IH as (Hsrc & Hacc & Hall).
      unfold f in Hsrc, Hacc. rewrite find_first_not_of_ws in Hsrc, Hacc.
      destruct (blank part) eqn:Hb.
      * repeat split.
        -- destruct Hsrc as [H|(p & Hin & Hp)]; [now left|right].
           exists p. split; [now right|exact Hp].
        -- exact Hacc.
        -- intros p [<-|Hin] Hp; [congruence|now apply Hall].
      * assert (Hle : a <= leading_ws part).
        { destruct acc as [b|]; cbn in Hacc.
          - specialize (Hacc _ eq_refl). lia.
          - now specialize (Hacc _ eq_refl). }
        repeat split.
        -- destruct Hsrc as [H|(p & Hin & Hp)].
           ++ destruct acc as [b|]; cbn in H; injection H as H.
              ** destruct (Nat.le_ge_cases b (leading_ws part)).
                 --- left. f_equal. lia.
                 --- right. exists part. repeat split; [now left|auto|lia].
              ** right. exists part. repeat split; [now left|auto|lia].
           ++ right. exists p. split; [now right|exact Hp].
        -- intros b ->. cbn in Hacc. specialize (Hacc _ eq_refl). lia.
        -- intros p [<-|Hin] Hp; [exact Hle|now apply Hall].
    + destruct IH as (Hacc & Hall). unfold f in Hacc.
      rewrite find_first_not_of_ws in Hacc. cbn [forallb].
      destruct (blank part); [now rewrite Hall|].
      destruct acc; discriminate.
Qed.

Lemma strip_amount_spec data :
  match strip_amount data with
  | None => forallb blank data = true
  | Some a =>
      (exists part, In part data /\ blank part = false /\ leading_ws part = a)
      /\ (forall part, In part data -> blank part = false -> a <= leading_ws part)
  end.
Proof.
  pose proof (strip_amount_fold data None) as H. cbv zeta in H.
  unfold strip_amount. destruct (fold_left _ data None) as [a|].
  - destruct H as ([H|H] & _ & Hall); [discriminate|]. now split.
  - tauto.
Qed.

(** ** Writers append to the stream *)

Lemma EscapeXML_app os str : EscapeXML os str = os ++ escape_spec str.
Proof. unfold EscapeXML. now rewrite XMLEscape_loop_spec. Qed.

Lemma write_verbatim_lines indent_ m data stream written :
  fold_left (write_verbatim_line indent_ m) data (stream, written)
  = (stream ++ concat (map (fun part => spaces indent_
                                         ++ escape_spec (stripped_line m part) ++ nl)
                           data),
     match data with [] => written | _ :: _ => true end).
Proof.
  revert stream written; induction data as [|part data IH]; intros stream written;
    cbn [fold_left map concat].
  - now rewrite app_nil_r.
  - assert (E : write_verbatim_line indent_ m (stream, written) part
                = (stream ++ spaces indent_ ++ escape_spec (stripped_line m part) ++ nl,
                   true)).
    { unfold write_verbatim_line, stripped_line, indent, put, spaces. cbn [fst].
      destruct m as [a|]; [destruct (a <? length part)%nat|];
        rewrite ?EscapeXML_app; cbn [escape_spec flat_map];
        now rewrite <- ?app_assoc. }
    rewrite E, IH. f_equal; [now rewrite <- !app_assoc|now destruct data].
Qed.

Lemma WriteVerbatim_app stream para indent_ :
  fst (WriteVerbatim stream para indent_) = stream ++ verbatim_text indent_ (Data para).
Proof. unfold WriteVerbatim, verbatim_text. now rewrite write_verbatim_lines. Qed.

Lemma blank_skipn a part : blank part = true -> blank (skipn a part) = true.
Proof.
  rewrite !blank_iff. intros H.
  rewrite <- (firstn_skipn a part), forallb_app in H.
  now apply andb_prop in H as [_ H].
Qed.

(** C5 (amended). A verbatim or code paragraph is written line by line with
    the common indentation taken off: the amount is the minimum of the leading
    whitespace over the lines that are not blank, only whitespace is taken
    off such a line, its trailing whitespace goes too, and what it keeps of
    its indentation is its own less the amount; a blank line is written as an
    empty line.  The lines [    foo] and [      bar] come out as [foo] and
    [  bar]. *)
Theorem WriteVerbatim_common_indentation (stream : raw_ostream) (para : Paragraph)
    (indent_ : nat) :
  fst (WriteVerbatim stream para indent_) = stream ++ verbatim_text indent_ (Data para)
  /\ (forallb blank (Data para) = false ->
      exists a, strip_amount (Data para) = Some a
        /\ (exists part, In part (Data para) /\ blank part = false /\ leading_ws part = a)
        /\ (forall part, In part (Data para) -> blank part = false ->
              a <= leading_ws part
              /\ forallb StringRef.is_space (firstn a part) = true
              /\ stripped_line (Some a) part = StringRef.rtrim (skipn a part)
              /\ leading_ws (skipn a part) = leading_ws part - a))
  /\ (forall part, In part (Data para) -> blank part = true ->
      stripped_line (strip_amount (Data para)) part = [])
  /\ fst (WriteVerbatim [] (mkParagraph ["    foo" : Str; "      bar" : Str]
                                        ParagraphType.VerbatimText) 0)
     = "foo" ++ nl ++ "  bar" ++ nl.
Proof.
  split; [apply WriteVerbatim_app|]. split; [|split; [|reflexivity]].
  - intros Hnb. pose proof (strip_amount_spec (Data para)) as H.
    destruct (strip_amount (Data para)) as [a|]; [|congruence].
    destruct H as (Hex & Hall). exists a. split; [reflexivity|]. split; [exact Hex|].
    intros part Hin Hb. pose proof (Hall _ Hin Hb) as Hle.
    destruct (leading_ws_skipn a part Hle) as [Hrel Hws].
    repeat split; auto.
    unfold stripped_line. pose proof (leading_ws_lt _ Hb).
    destruct (Nat.ltb_spec a (length part)); [reflexivity|lia].
  - intros part _ Hb. unfold stripped_line.
    destruct (strip_amount (Data para)) as [a|]; [|reflexivity].
    destruct (a <? length part)%nat; [|reflexivity].
    now apply rtrim_blank, blank_skipn.
Qed.

Lemma WriteVerbatim_common_indentation_witness :
  exists a,
    strip_amount ["    foo" : Str; "      bar" : Str] = Some a
    /\ a = 4
    /\ stripped_line (Some a) "      bar" = "  bar".
Proof.
  destruct (proj1 (proj2 (WriteVerbatim_common_indentation []
              (mkParagraph ["    foo" : Str; "      bar" : Str]
                           ParagraphType.VerbatimText) 0)) eq_refl)
    as (a & Ha & _).
  exists a. split; [exact Ha|].
  injection Ha as <-. split; reflexivity.
Defined.

(** C5 as worded fails on a paragraph with an empty line: the minimum over
    all the lines is then 0 and nothing would be stripped, while the source
    leaves blank lines out of the minimum and strips 4. *)
Lemma WriteVerbatim_all_lines_counterexample :
  fst (WriteVerbatim [] (mkParagraph ["    foo" : Str; [] ; "      bar" : Str]
                                     ParagraphType.VerbatimText) 0)
  = "foo" ++ nl ++ nl ++ "  bar" ++ nl
  /\ verbatim_text_all_lines 0 ["    foo" : Str; [] ; "      bar" : Str]
     = "    foo" ++ nl ++ nl ++ "      bar" ++ nl
  /\ fst (WriteVerbatim [] (mkParagraph ["    foo" : Str; [] ; "      bar" : Str]
                                        ParagraphType.VerbatimText) 0)
     <> verbatim_text_all_lines 0 ["    foo" : Str; [] ; "      bar" : Str].
Proof. repeat split. vm_compute. discriminate. Qed.

(** ** The paragraph loop *)

Lemma Write_loop_cons indent_ prefix it rest stream newPara :
  Write_loop indent_ prefix (it :: rest) stream newPara
  = let '(stream', newPara', rest') := Write_step indent_ prefix it rest stream newPara in
    Write_loop indent_ prefix rest' stream' newPara'.
Proof.
  simp Write_loop.
  generalize (inspect (Write_step indent_ prefix it rest stream newPara)).
  intros [[[s n] r] H]. simp Write_loop. now rewrite H.
Qed.

Lemma skip_empty_app blanks next after :
  forallb Para.empty blanks = true -> Para.empty next = false ->
  skip_empty (blanks ++ next :: after) = next :: after.
Proof.
  intros Hb Hn. induction blanks as [|p blanks IH]; cbn [app skip_empty].
  - now rewrite Hn.
  - cbn [forallb] in Hb. apply andb_prop in Hb as [Hp Hb]. rewrite Hp. now apply IH.
Qed.

Lemma skip_empty_all rest :
  forallb Para.empty rest = true -> skip_empty rest = [].
Proof.
  induction rest as [|p rest IH]; cbn [forallb skip_empty]; [reflexivity|].
  intros H. apply andb_prop in H as [Hp H]. rewrite Hp. now apply IH.
Qed.

Lemma Write_loop_all_empty indent_ prefix rest stream newPara :
  forallb Para.empty rest = true ->
  Write_loop indent_ prefix rest stream newPara = (stream, newPara).
Proof.
  induction rest as [|p rest IH]; cbn [forallb]; intros H; [now simp Write_loop|].
  apply andb_prop in H as [Hp H].
  rewrite Write_loop_cons. unfold Write_step. rewrite Hp. cbn [negb]. now apply IH.
Qed.

Lemma write_codeblock_text stream it indent_ :
  write_codeblock stream it indent_
  = stream ++ spaces indent_ ++ "[codeblock lang=" ++ language_name (Type_ it) ++ "]"
      ++ nl ++ verbatim_text indent_ (Data it) ++ spaces indent_ ++ "[/codeblock]".
Proof.
  unfold write_codeblock. rewrite WriteVerbatim_app.
  unfold language_name, indent, put, spaces.
  destruct (Type_ it); cbn [ParagraphType.write]; unfold put;
    rewrite <- ?app_assoc; reflexivity.
Qed.

Lemma write_codeblocks_text stream it next indent_ :
  write_codeblocks stream it next indent_
  = stream ++ spaces indent_ ++ "[codeblocks]" ++ nl
      ++ spaces indent_ ++ "[" ++ language_name (Type_ it) ++ "]" ++ nl
      ++ verbatim_text indent_ (Data it)
      ++ spaces indent_ ++ "[/" ++ language_name (Type_ it) ++ "]" ++ nl
      ++ spaces indent_ ++ "[" ++ language_name (Type_ next) ++ "]" ++ nl
      ++ verbatim_text indent_ (Data next)
      ++ spaces indent_ ++ "[/" ++ language_name (Type_ next) ++ "]" ++ nl
      ++ spaces indent_ ++ "[/codeblocks]".
Proof.
  unfold write_codeblocks. rewrite !WriteVerbatim_app.
  unfold language_name, indent, put, spaces.
  destruct (Type_ it), (Type_ next); cbn [ParagraphType.write]; unfold put;
    rewrite <- ?app_assoc; reflexivity.
Qed.

(** C3. At a code paragraph that is not empty, the loop looks at the next
    paragraph that is not empty: if that one is code of the other script
    language, both go out as one [codeblocks] block holding the two variants
    one after the other and the loop goes on behind the second paragraph;
    if it is anything else, or there is none, the paragraph goes out as a
    [codeblock] tagged with its language and the loop goes on behind it. *)
Theorem Write_code_paragraph (indent_ : nat) (prefix : Str) (it : Paragraph)
    (rest : Paragraphs) (stream : raw_ostream) (newPara : bool) :
  Type_ it = ParagraphType.GDScript \/ Type_ it = ParagraphType.CSharpCode ->
  Para.empty it = false ->
  let stream' := if newPara then stream << nl else stream in
  (forall blanks next after,
      rest = blanks ++ next :: after ->
      forallb Para.empty blanks = true -> Para.empty next = false ->
      if IsDifferentLanguage (Type_ it) (Type_ next)
      then Write_loop indent_ prefix (it :: rest) stream newPara
           = Write_loop indent_ prefix after
                        (write_codeblocks stream' it next indent_) true
      else Write_loop indent_ prefix (it :: rest) stream newPara
           = Write_loop indent_ prefix rest (write_codeblock stream' it indent_) true)
  /\ (forallb Para.empty rest = true ->
      Write_loop indent_ prefix (it :: rest) stream newPara
      = (write_codeblock stream' it indent_, true))
  /\ (forall next,
        IsDifferentLanguage (Type_ it) (Type_ next) = true <->
        (Type_ it = ParagraphType.GDScript /\ Type_ next = ParagraphType.CSharpCode)
        \/ (Type_ it = ParagraphType.CSharpCode /\ Type_ next = ParagraphType.GDScript))
  /\ write_codeblock stream' it indent_
     = stream' ++ spaces indent_ ++ "[codeblock lang=" ++ language_name (Type_ it)
         ++ "]" ++ nl ++ verbatim_text indent_ (Data it)
         ++ spaces indent_ ++ "[/codeblock]"
  /\ (forall next,
        write_codeblocks stream' it next indent_
        = stream' ++ spaces indent_ ++ "[codeblocks]" ++ nl
            ++ spaces indent_ ++ "[" ++ language_name (Type_ it) ++ "]" ++ nl
            ++ verbatim_text indent_ (Data it)
            ++ spaces indent_ ++ "[/" ++ language_name (Type_ it) ++ "]" ++ nl
            ++ spaces indent_ ++ "[" ++ language_name (Type_ next) ++ "]" ++ nl
            ++ verbatim_text indent_ (Data next)
            ++ spaces indent_ ++ "[/" ++ language_name (Type_ next) ++ "]" ++ nl
            ++ spaces indent_ ++ "[/codeblocks]").
Proof.
  intros Hcode Hne stream'.
  assert (Hstep : Write_step indent_ prefix it rest stream newPara
                  = match skip_empty rest with
                    | next :: after =>
                        if IsDifferentLanguage (Type_ it) (Type_ next)
                        then (write_codeblocks stream' it next indent_, true, after)
                        else (write_codeblock stream' it indent_, true, rest)
                    | [] => (write_codeblock stream' it indent_, true, rest)
                    end).
  { unfold Write_step. rewrite Hne. cbn [negb]. now destruct Hcode as [-> | ->]. }
  split; [|split; [|split; [|split]]].
  - intros blanks next after -> Hb Hn.
    rewrite Write_loop_cons, Hstep, (skip_empty_app _ _ _ Hb Hn).
    now destruct (IsDifferentLanguage (Type_ it) (Type_ next)).
  - intros Hall.
    rewrite Write_loop_cons, Hstep, (skip_empty_all _ Hall).
    now apply Write_loop_all_empty.
  - intros next. destruct (Type_ it), (Type_ next); cbn; split;
      try discriminate; try tauto;
      intros [[H1 H2]|[H1 H2]]; discriminate.
  - apply write_codeblock_text.
  - intros next. apply write_codeblocks_text.
Qed.

Lemma Write_code_paragraph_witness :
  Write_loop 1 "P:"
    (mkParagraph ["  a" : Str; "   b" : Str] ParagraphType.GDScript
       :: [mkParagraph [" " : Str] ParagraphType.Normal]
       ++ mkParagraph ["  c" : Str] ParagraphType.CSharpCode
       :: [mkParagraph ["after" : Str] ParagraphType.Normal])
    [] false
  = Write_loop 1 "P:" [mkParagraph ["after" : Str] ParagraphType.Normal]
      (write_codeblocks []
         (mkParagraph ["  a" : Str; "   b" : Str] ParagraphType.GDScript)
         (mkParagraph ["  c" : Str] ParagraphType.CSharpCode) 1)
      true.
Proof.
  exact (proj1 (Write_code_paragraph 1 "P:"
                  (mkParagraph ["  a" : Str; "   b" : Str] ParagraphType.GDScript)
                  _ [] false (or_introl eq_refl) eq_refl)
               [mkParagraph [" " : Str] ParagraphType.Normal]
               (mkParagraph ["  c" : Str] ParagraphType.CSharpCode)
               [mkParagraph ["after" : Str] ParagraphType.Normal]
               eq_refl eq_refl eq_refl).
Defined.

(** ** List items *)

Lemma WriteSingleLine_single stream a type indent_ prefix :
  blank a = false ->
  WriteSingleLine stream (mkParagraph [a] type) indent_ prefix
  = (stream ++ spaces indent_ ++ escape_spec prefix
       ++ escape_spec (StringRef.ltrim (StringRef.rtrim a)),
     true).
Proof.
  intros Hb. unfold WriteSingleLine.
  cbn [Data rev app back_over_blank fold_left].
  rewrite (rtrim_not_blank _ Hb). cbn [negb write_piece].
  rewrite !EscapeXML_app. unfold indent, put, spaces. now rewrite <- !app_assoc.
Qed.

(** C8. Each [li] command appends its paragraph, marked as a list item, to
    the detailed description, so two of them in a row leave two list
    paragraphs there; written out, these are two lines, each behind the
    bullet label, with the one line feed that ends the first between them. *)
Theorem list_items_render_contiguously (className a b : Str) (hasBriefTag0 flag : bool)
    (args : list Str) (block : list Comment) (doc : ParsedDocumentation)
    (stream : raw_ostream) (indent_ : nat) (prefix : Str) :
  ParseBlock className "li" args block doc flag
  = (Doc.set_Detailed
       (Detailed doc
          ++ [Para.set_Type ParagraphType.List (ParseComments block className)])
       doc,
     flag)
  /\ Detailed (ParsedDocumentation_of hasBriefTag0 className
                 (Some [BlockCommandComment "li" [] [ParagraphComment [TextComment a]];
                        BlockCommandComment "li" [] [ParagraphComment [TextComment b]]]))
     = [mkParagraph [a] ParagraphType.List; mkParagraph [b] ParagraphType.List]
  /\ (blank a = false -> blank b = false ->
      Write stream [mkParagraph [a] ParagraphType.List; mkParagraph [b] ParagraphType.List]
            indent_ prefix
      = (stream ++ spaces indent_ ++ bullet
           ++ escape_spec (StringRef.ltrim (StringRef.rtrim a)) ++ nl
           ++ spaces indent_ ++ bullet
           ++ escape_spec (StringRef.ltrim (StringRef.rtrim b)),
         true))
  /\ Write []
       (Detailed (ParsedDocumentation_of hasBriefTag0 className
          (Some [BlockCommandComment "li" [] [ParagraphComment [TextComment "A"]];
                 BlockCommandComment "li" [] [ParagraphComment [TextComment "B"]]])))
       0 prefix
     = (bullet ++ "A" ++ nl ++ bullet ++ "B", true).
Proof.
  assert (Hwrite : forall stream indent_ a b, blank a = false -> blank b = false ->
    Write stream [mkParagraph [a] ParagraphType.List; mkParagraph [b] ParagraphType.List]
          indent_ prefix
    = (stream ++ spaces indent_ ++ bullet
         ++ escape_spec (StringRef.ltrim (StringRef.rtrim a)) ++ nl
         ++ spaces indent_ ++ bullet
         ++ escape_spec (StringRef.ltrim (StringRef.rtrim b)),
       true)).
  { intros os n x y Hx Hy. unfold Write.
    assert (Hex : forall z, blank z = false ->
              Para.empty (mkParagraph [z] ParagraphType.List) = false).
    { intros z Hz. unfold Para.empty. cbn [Data forallb].
      change (StringRef.empty (StringRef.ltrim z)) with (blank z). now rewrite Hz. }
    rewrite Write_loop_cons. unfold Write_step. rewrite (Hex _ Hx).
    cbn [negb Type_]. rewrite (WriteSingleLine_single _ _ _ _ _ Hx). cbn [fst].
    rewrite Write_loop_cons. unfold Write_step. rewrite (Hex _ Hy).
    cbn [negb Type_]. rewrite (WriteSingleLine_single _ _ _ _ _ Hy). cbn [fst].
    simp Write_loop. unfold put.
    change (escape_spec bullet) with bullet.
    now rewrite <- !app_assoc. }
  assert (Hparse : forall a b,
    Detailed (ParsedDocumentation_of hasBriefTag0 className
                (Some [BlockCommandComment "li" [] [ParagraphComment [TextComment a]];
                       BlockCommandComment "li" [] [ParagraphComment [TextComment b]]]))
    = [mkParagraph [a] ParagraphType.List; mkParagraph [b] ParagraphType.List])
    by (intros; now destruct hasBriefTag0).
  split; [reflexivity|]. split; [apply Hparse|]. split; [apply Hwrite|].
  rewrite Hparse. now rewrite Hwrite.
Qed.

Lemma list_items_render_contiguously_witness :
  Write [] [mkParagraph [" A" : Str] ParagraphType.List;
            mkParagraph [" B" : Str] ParagraphType.List] 1 []
  = (" " ++ bullet ++ "A" ++ nl ++ " " ++ bullet ++ "B", true).
Proof.
  exact (proj1 (proj2 (proj2
           (list_items_render_contiguously [] " A" " B" false false [] []
              ParsedDocumentation_empty [] 1 [])))
           eq_refl eq_refl).
Defined.

(** ** Tutorials *)

Lemma first_nonblank_app before span after :
  forallb blank before = true -> blank span = false ->
  first_nonblank (before ++ span :: after) = Some (before, span, after).
Proof.
  intros Hb Hs. induction before as [|x before IH]; cbn [app first_nonblank].
  - change (StringRef.empty (StringRef.ltrim span)) with (blank span). now rewrite Hs.
  - cbn [forallb] in Hb. apply andb_prop in Hb as [Hx Hb].
    change (StringRef.empty (StringRef.ltrim x)) with (blank x).
    rewrite Hx. cbn [negb]. now rewrite (IH Hb).
Qed.

Lemma first_nonblank_none data :
  forallb blank data = true -> first_nonblank data = None.
Proof.
  induction data as [|x data IH]; cbn [forallb first_nonblank]; [reflexivity|].
  intros H. apply andb_prop in H as [Hx H].
  change (StringRef.empty (StringRef.ltrim x)) with (blank x).
  rewrite Hx. cbn [negb]. now rewrite (IH H).
Qed.

Lemma ltrim_split s :
  s = firstn (leading_ws s) s ++ StringRef.ltrim s
  /\ forallb StringRef.is_space (firstn (leading_ws s) s) = true
  /\ StringRef.ltrim (StringRef.ltrim s) = StringRef.ltrim s.
Proof.
  induction s as [|c s (IH1 & IH2 & IH3)]; cbn [leading_ws StringRef.ltrim];
    [now repeat split|].
  destruct (StringRef.is_space c) eqn:E.
  - cbn [firstn forallb app]. rewrite E, IH2, IH3. repeat split. now f_equal.
  - cbn [firstn forallb app StringRef.ltrim]. now rewrite E.
Qed.

Lemma Doc_set_Tutorials_same doc : Doc.set_Tutorials (Tutorials doc) doc = doc.
Proof. now destruct doc. Qed.

Lemma ParseBlock_tutorial_record (className : Str) (args : list Str) (block : list Comment)
    (doc : ParsedDocumentation) (flag : bool) :
  let paragraph := ParseComments block className in
  (Para.empty paragraph = true ->
   ParseBlock className "tutorial" args block doc flag = (doc, flag))
  /\ (forall before span after,
        Data paragraph = before ++ span :: after ->
        forallb blank before = true -> blank span = false ->
        exists url title,
          ParseBlock className "tutorial" args block doc flag
          = (Doc.set_Tutorials
               (Tutorials doc
                  ++ [mkTutorial url (mkParagraph title (Type_ paragraph))])
               doc,
             flag)
          /\ ((forallb (fun c => negb (StringRef.is_space c)) (StringRef.trim span) = true
               /\ url = StringRef.trim span
               /\ title = before ++ after)
              \/ (exists run fragment,
                     StringRef.trim span = url ++ run ++ fragment
                     /\ run <> []
                     /\ forallb StringRef.is_space run = true
                     /\ forallb (fun c => negb (StringRef.is_space c)) url = true
                     /\ StringRef.ltrim fragment = fragment
                     /\ title = before ++ fragment :: after))).
Proof.
  intros paragraph.
  assert (Hblock : ParseBlock className "tutorial" args block doc flag
                   = (Doc.set_Tutorials (ParseTutorial paragraph (Tutorials doc)) doc,
                      flag)) by reflexivity.
  split.
  - intros Hempty. rewrite Hblock. unfold ParseTutorial.
    rewrite (first_nonblank_none _ Hempty). now rewrite Doc_set_Tutorials_same.
  - intros before span after Hdata Hb Hs. rewrite Hblock. unfold ParseTutorial.
    rewrite Hdata, (first_nonblank_app _ _ _ Hb Hs).
    unfold StringRef.find_first_of.
    destruct (StringRef.find_from _ (StringRef.trim span) 0) as [pos|] eqn:E.
    + destruct (find_from_Some _ _ _ _ E) as (_ & c & Hsplit & _ & Hc & Hurl).
      cbn [skipn] in Hsplit. rewrite Nat.sub_0_r in Hsplit, Hurl.
      exists (StringRef.substr (StringRef.trim span) 0 pos).
      exists (before ++ StringRef.ltrim (StringRef.substr_from (StringRef.trim span) (pos + 1))
                :: after).
      split; [reflexivity|]. right.
      destruct (ltrim_split (skipn (pos + 1) (StringRef.trim span))) as (H1 & H2 & H3).
      exists (c :: firstn (leading_ws (skipn (pos + 1) (StringRef.trim span)))
                          (skipn (pos + 1) (StringRef.trim span))).
      exists (StringRef.ltrim (skipn (pos + 1) (StringRef.trim span))).
      repeat split.
      * cbn [app]. rewrite <- H1. exact Hsplit.
      * discriminate.
      * cbn [forallb]. change (StringRef.is_space c) with
          (StringRef.in_chars c StringRef.whitespace). now rewrite Hc, H2.
      * exact Hurl.
      * exact H3.
    + apply find_from_None in E. cbn [skipn] in E.
      exists (StringRef.trim span), (before ++ after).
      split; [reflexivity|]. left. now repeat split.
Qed.


(** ** Parameter descriptions *)

Lemma assign_at_length v idx x : length (assign_at v idx x) = length v.
Proof.
  revert idx; induction v as [|y v IH]; intros [|idx]; cbn [assign_at length];
    auto.
Qed.

Lemma assign_at_same v idx x :
  idx < length v -> nth_error (assign_at v idx x) idx = Some x.
Proof.
  revert idx; induction v as [|y v IH]; intros [|idx]; cbn [assign_at length nth_error];
    try lia; [reflexivity|].
  intros H. apply IH. lia.
Qed.

Lemma assign_at_other v idx x j :
  j <> idx -> nth_error (assign_at v idx x) j = nth_error v j.
Proof.
  revert idx j; induction v as [|y v IH]; intros [|idx] [|j] H;
    cbn [assign_at nth_error]; try reflexivity; try lia.
  apply IH. lia.
Qed.

Lemma nth_error_repeat {A} (x : A) n j : j < n -> nth_error (repeat x n) j = Some x.
Proof.
  revert j; induction n as [|n IH]; intros [|j] H; cbn [repeat nth_error];
    try lia; [reflexivity|].
  apply IH. lia.
Qed.

Lemma ParseParam_resized className idx name block descs :
  (idx < 2 ^ 32 - 1)%N ->
  ParseParam className idx name block descs
  = assign_at (descs ++ repeat Parameters_new (N.to_nat idx + 1 - length descs))
              (N.to_nat idx) (mkParameters name (ParseComments block className)).
Proof.
  intros Hidx. unfold ParseParam, wrap32, resize.
  rewrite N.mod_small by lia.
  destruct (N.leb_spec (N.of_nat (length descs)) idx) as [Hle|Hgt].
  - replace (N.to_nat (idx + 1)) with (N.to_nat idx + 1) by lia.
    rewrite firstn_all2 by lia. reflexivity.
  - replace (N.to_nat idx + 1 - length descs) with 0 by lia.
    cbn [repeat]. now rewrite app_nil_r.
Qed.

(** C6. A parameter node that is not a vararg one and carries the index [idx]
    leaves a list in which [idx] is addressable, the slot [idx] holds the
    name and the description of the node, the other slots that were there
    are as before, and the slots created in between hold an empty name and
    an empty description; on a fresh record the index 2 gives three slots,
    the first two of them empty. *)
Theorem parameter_slot (className : Str) (idx : N) (name : Str) (block : list Comment)
    (doc : ParsedDocumentation) (flag hasBriefTag0 : bool) :
  (idx < 2 ^ 32 - 1)%N ->
  let descs := ParameterDescs doc in
  let descs' :=
    ParameterDescs
      (fst (ParseTopLevel className (doc, flag)
                          (ParamCommandComment false idx name block))) in
  let slot := mkParameters name (ParseComments block className) in
  length descs' = Nat.max (length descs) (N.to_nat idx + 1)
  /\ nth_error descs' (N.to_nat idx) = Some slot
  /\ (forall j, j < length descs -> j <> N.to_nat idx ->
        nth_error descs' j = nth_error descs j)
  /\ (forall j, length descs <= j < N.to_nat idx ->
        nth_error descs' j
        = Some (mkParameters [] (mkParagraph [] ParagraphType.Normal)))
  /\ ParameterDescs
       (ParsedDocumentation_of hasBriefTag0 className
          (Some [ParamCommandComment false 2 name block]))
     = [mkParameters [] (mkParagraph [] ParagraphType.Normal);
        mkParameters [] (mkParagraph [] ParagraphType.Normal);
        slot].
Proof.
  intros Hidx descs descs' slot.
  assert (E : descs' = assign_at (descs ++ repeat Parameters_new
                                    (N.to_nat idx + 1 - length descs))
                                 (N.to_nat idx) slot).
  { unfold descs'. cbn [ParseTopLevel negb fst]. destruct doc; cbn.
    now apply ParseParam_resized. }
  assert (Hlen : length (descs ++ repeat Parameters_new (N.to_nat idx + 1 - length descs))
                 = Nat.max (length descs) (N.to_nat idx + 1)).
  { rewrite length_app, repeat_length. lia. }
  split; [|split; [|split; [|split]]].
  - rewrite E, assign_at_length. exact Hlen.
  - rewrite E. apply assign_at_same. lia.
  - intros j Hj Hne. rewrite E, (assign_at_other _ _ _ _ Hne).
    now apply nth_error_app1.
  - intros j Hj. rewrite E, assign_at_other by lia.
    rewrite nth_error_app2 by lia. apply nth_error_repeat. lia.
  - now destruct hasBriefTag0.
Qed.

Lemma parameter_slot_witness :
  nth_error
    (ParameterDescs
       (fst (ParseTopLevel "Player" (ParsedDocumentation_empty, false)
               (ParamCommandComment false 2 "speed"
                  [ParagraphComment [TextComment " How fast."]]))))
    1
  = Some (mkParameters [] (mkParagraph [] ParagraphType.Normal)).
Proof.
  refine (proj1 (proj2 (proj2 (proj2
            (parameter_slot "Player" 2 "speed"
               [ParagraphComment [TextComment " How fast."]]
               ParsedDocumentation_empty false false _))))
            1 _).
  - reflexivity.
  - simpl. lia.
Defined.

(** ** Brief and detailed description *)

(** With the flag reading [false] at its first use, two bare paragraphs give
    the first as brief and the second as detailed description. *)
Lemma brief_is_first_paragraph_when_flag_clear (className : Str) :
  let doc :=
    ParsedDocumentation_of false className
      (Some [ParagraphComment [TextComment "Summary."];
             ParagraphComment [TextComment "Body."]]) in
  Brief doc = mkParagraph ["Summary." : Str] ParagraphType.Normal
  /\ Detailed doc = [mkParagraph ["Body." : Str] ParagraphType.Normal].
Proof. split; reflexivity. Qed.

(** Whatever the flag reads, a [brief] command behind the two paragraphs
    leaves its text as brief and both paragraphs, in order, as detailed
    description. *)
Lemma brief_command_after_paragraphs (hasBriefTag0 : bool) (className : Str) :
  let doc :=
    ParsedDocumentation_of hasBriefTag0 className
      (Some [ParagraphComment [TextComment "Summary."];
             ParagraphComment [TextComment "Body."];
             BlockCommandComment "brief" []
               [ParagraphComment [TextComment "New summary."]]]) in
  Brief doc = mkParagraph ["New summary." : Str] ParagraphType.Normal
  /\ Detailed doc = [mkParagraph ["Summary." : Str] ParagraphType.Normal;
                     mkParagraph ["Body." : Str] ParagraphType.Normal].
Proof. destruct hasBriefTag0; split; reflexivity. Qed.

(** C1. The flag [hasBriefTag] is read before anything is stored in it.  When
    that read gives [true], two bare paragraphs leave the brief description
    empty and both go to the detailed description. *)
Theorem brief_lost_when_flag_reads_set (className : Str) :
  let doc :=
    ParsedDocumentation_of true className
      (Some [ParagraphComment [TextComment "Summary."];
             ParagraphComment [TextComment "Body."]]) in
  Brief doc = mkParagraph [] ParagraphType.Normal
  /\ Detailed doc = [mkParagraph ["Summary." : Str] ParagraphType.Normal;
                     mkParagraph ["Body." : Str] ParagraphType.Normal].
Proof. split; reflexivity. Qed.

(** * Further properties *)

(** ** Escaping, continued *)

Lemma escape_char_spec_clean c x :
  In x [quot; apos; "<"%char; ">"%char] -> ~ In x (escape_char_spec c).
Proof.
  intros Hx. unfold escape_char_spec.
  destruct (Ascii.eqb c quot) eqn:E1;
    [|destruct (Ascii.eqb c apos) eqn:E2;
      [|destruct (Ascii.eqb c "<") eqn:E3;
        [|destruct (Ascii.eqb c ">") eqn:E4;
          [|destruct (Ascii.eqb c "&") eqn:E5]]]].
  1-5: simpl in Hx; simpl; intros Hin;
    repeat (destruct Hx as [<-|Hx]; [repeat (destruct Hin as [Hin|Hin];
                                              [discriminate Hin|]); exact Hin|]);
    exact Hx.
  simpl. intros [<-|[]]. simpl in Hx.
  apply Ascii.eqb_neq in E1, E2, E3, E4.
  destruct Hx as [H|[H|[H|[H|[]]]]]; congruence.
Qed.

Lemma escape_spec_clean s x :
  In x [quot; apos; "<"%char; ">"%char] -> ~ In x (escape_spec s).
Proof.
  intros Hx. induction s as [|c s IH]; [intros []|].
  unfold escape_spec in *. cbn [flat_map]. intros Hin.
  apply in_app_or in Hin as [Hin|Hin]; [|now apply IH].
  now apply (escape_char_spec_clean c x).
Qed.

(** X1. What escaping writes holds no double quote, no apostrophe, no [<]
    and no [>], whatever the input. *)
Theorem EscapeXML_writes_no_markup (os : raw_ostream) (str : Str) :
  exists text,
    EscapeXML os str = os ++ text
    /\ ~ In quot text /\ ~ In apos text /\ ~ In "<"%char text /\ ~ In ">"%char text.
Proof.
  exists (escape_spec str). split; [apply EscapeXML_app|].
  repeat split; apply escape_spec_clean; simpl; tauto.
Qed.

Lemma escape_char_spec_inj c d s t :
  escape_char_spec c ++ s = escape_char_spec d ++ t -> c = d /\ s = t.
Proof.
  unfold escape_char_spec.
  destruct (Ascii.eqb c quot) eqn:C1;
    [|destruct (Ascii.eqb c apos) eqn:C2;
      [|destruct (Ascii.eqb c "<") eqn:C3;
        [|destruct (Ascii.eqb c ">") eqn:C4;
          [|destruct (Ascii.eqb c "&") eqn:C5]]]];
  (destruct (Ascii.eqb d quot) eqn:D1;
    [|destruct (Ascii.eqb d apos) eqn:D2;
      [|destruct (Ascii.eqb d "<") eqn:D3;
        [|destruct (Ascii.eqb d ">") eqn:D4;
          [|destruct (Ascii.eqb d "&") eqn:D5]]]]);
  cbn [list_ascii_of_string app]; intros H;
  try (injection H; intros; discriminate);
  rewrite ?Ascii.eqb_eq, ?Ascii.eqb_neq in *;
  try (injection H; intros; subst; split; congruence).
Qed.

Lemma escape_char_spec_nonempty c : escape_char_spec c <> [].
Proof.
  unfold escape_char_spec.
  repeat match goal with |- context [if ?b then _ else _] => destruct b end;
    discriminate.
Qed.

(** X2. Escaping loses nothing: two strings that are written alike are the
    same string. *)
Theorem EscapeXML_injective (os : raw_ostream) (s t : Str) :
  EscapeXML os s = EscapeXML os t -> s = t.
Proof.
  rewrite !EscapeXML_app. intros H. apply app_inv_head in H.
  revert t H; induction s as [|c s IH]; intros [|d t] H.
  - reflexivity.
  - exfalso. unfold escape_spec in H. cbn [flat_map] in H.
    symmetry in H. apply app_eq_nil in H as [H _].
    now apply (escape_char_spec_nonempty d).
  - exfalso. unfold escape_spec in H. cbn [flat_map] in H.
    apply app_eq_nil in H as [H _]. now apply (escape_char_spec_nonempty c).
  - unfold escape_spec in H. cbn [flat_map] in H.
    apply escape_char_spec_inj in H as [-> H]. f_equal. now apply IH.
Qed.

Lemma EscapeXML_injective_witness : ("a<b" : Str) = "a<b".
Proof. exact (EscapeXML_injective "x=" "a<b" "a<b" eq_refl). Defined.

(** X3. Writing a text in two pieces, one after the other, is writing it
    whole: an entity never spans the seam. *)
Theorem EscapeXML_concat (os : raw_ostream) (s t : Str) :
  EscapeXML os (s ++ t) = EscapeXML (EscapeXML os s) t.
Proof. rewrite !EscapeXML_app, escape_spec_app. now rewrite app_assoc. Qed.

(** ** Paragraphs, continued *)

(** X4. A paragraph is empty exactly when every byte of every span is
    whitespace; a paragraph without spans is empty. *)
Theorem Paragraph_empty_iff (p : Paragraph) :
  Para.empty p = true <->
  (forall span, In span (Data p) -> forall c, In c span -> StringRef.is_space c = true).
Proof.
  unfold Para.empty. rewrite forallb_forall. split.
  - intros H span Hin. specialize (H span Hin).
    change (blank span = true) in H. rewrite blank_iff, forallb_forall in H. exact H.
  - intros H span Hin. change (blank span = true).
    rewrite blank_iff, forallb_forall. now apply H.
Qed.

Lemma Paragraph_empty_iff_witness :
  Para.empty (mkParagraph [" " : Str; [] ] ParagraphType.List) = true.
Proof.
  apply (proj2 (Paragraph_empty_iff (mkParagraph [" " : Str; [] ] ParagraphType.List))).
  intros span [<-|[<-|[]]] c; [intros [<-|[]]; reflexivity|intros []].
Defined.

Lemma skipn_leading_ws s : skipn (leading_ws s) s = StringRef.ltrim s.
Proof.
  induction s as [|c s IH]; cbn [leading_ws StringRef.ltrim]; [reflexivity|].
  now destruct (StringRef.is_space c).
Qed.

(** X5. [push_front] puts the label in front and keeps the kind; the span
    that was first loses its leading whitespace, unless it is blank, and
    then it stays as it is; the other spans are untouched. *)
Theorem push_front_spans (p : Paragraph) (str : Str) :
  Type_ (Para.push_front p str) = Type_ p
  /\ Data (Para.push_front p str)
     = str :: match Data p with
              | [] => []
              | first :: rest =>
                  (if blank first then first else StringRef.ltrim first) :: rest
              end.
Proof.
  unfold Para.push_front. cbn [Type_ Data]. split; [reflexivity|]. f_equal.
  destruct (Data p) as [|first rest]; [reflexivity|].
  rewrite find_first_not_of_ws. destruct (blank first); [reflexivity|].
  unfold StringRef.substr_from. now rewrite skipn_leading_ws.
Qed.

(** ** A paragraph as a single line *)

Lemma back_over_blank_drop x before :
  match drop_blank (x :: before) with
  | [] => back_over_blank x before = ([], [])
  | y :: before' =>
      back_over_blank x before = (StringRef.rtrim y, before') /\ blank y = false
  end.
Proof.
  revert x; induction before as [|y before IH]; intros x;
    cbn [drop_blank back_over_blank].
  - destruct (blank x) eqn:Hx; [now rewrite (rtrim_blank _ Hx)|now split].
  - destruct (blank x) eqn:Hx.
    + rewrite (rtrim_blank _ Hx). cbn [StringRef.empty]. apply IH.
    + now rewrite (rtrim_not_blank _ Hx).
Qed.

Lemma drop_blank_nil r : drop_blank r = [] <-> forallb blank r = true.
Proof.
  induction r as [|x r IH]; cbn [drop_blank forallb]; [tauto|].
  destruct (blank x); cbn [andb]; [exact IH|]. split; discriminate.
Qed.

Lemma write_pieces_written indent_ prefix pieces stream :
  fold_left (fun st str =>
               if (0 <? length str)%nat then write_piece indent_ prefix st str else st)
            pieces (stream, true)
  = (stream ++ escape_spec (concat pieces), true).
Proof.
  revert stream; induction pieces as [|str pieces IH]; intros stream;
    cbn [fold_left concat].
  - now rewrite app_nil_r.
  - destruct str as [|c str]; cbn [length Nat.ltb Nat.leb].
    + apply IH.
    + cbn [write_piece]. rewrite IH, EscapeXML_app, escape_spec_app.
      now rewrite <- app_assoc.
Qed.

Lemma write_pieces_last indent_ prefix pieces last stream :
  last <> [] ->
  write_piece indent_ prefix
    (fold_left (fun st str =>
                  if (0 <? length str)%nat then write_piece indent_ prefix st str
                  else st)
               pieces (stream, false))
    last
  = (stream ++ spaces indent_ ++ escape_spec prefix
       ++ escape_spec (ltrim_first (pieces ++ [last])),
     true).
Proof.
  intros Hlast. induction pieces as [|str pieces IH]; cbn [fold_left app ltrim_first].
  - destruct last as [|c last]; [contradiction|].
    cbn [write_piece concat]. rewrite !EscapeXML_app, app_nil_r.
    unfold indent, put, spaces. now rewrite <- !app_assoc.
  - destruct str as [|c str]; cbn [length Nat.ltb Nat.leb]; [exact IH|].
    cbn [write_piece]. rewrite write_pieces_written. cbn [write_piece].
    rewrite !EscapeXML_app, concat_app, !escape_spec_app. cbn [concat].
    rewrite app_nil_r. unfold indent, put, spaces. now rewrite <- !app_assoc.
Qed.

Lemma WriteSingleLine_line (stream : raw_ostream) (para : Paragraph)
    (indent_ : nat) (prefix : Str) :
  WriteSingleLine stream para indent_ prefix
  = if Para.empty para then (stream, false)
    else (stream ++ spaces indent_ ++ escape_spec prefix
            ++ escape_spec (single_line_text (Data para)),
          true).
Proof.
  unfold WriteSingleLine, single_line_text, Para.empty.
  change (forallb (fun data => StringRef.empty (StringRef.ltrim data)) (Data para))
    with (forallb blank (Data para)).
  rewrite <- (forallb_rev blank (Data para)).
  destruct (rev (Data para)) as [|x before] eqn:Hrev; [reflexivity|].
  pose proof (back_over_blank_drop x before) as Hback.
  pose proof (drop_blank_nil (x :: before)) as Hnil.
  destruct (drop_blank (x :: before)) as [|y before'].
  - rewrite Hback, (proj1 Hnil eq_refl). reflexivity.
  - destruct Hback as [-> Hy].
    destruct (forallb blank (x :: before)) eqn:Hall;
      [now specialize (proj2 Hnil eq_refl)|].
    pose proof (rtrim_not_blank _ Hy) as Hne. rewrite Hne. cbn [negb].
    apply write_pieces_last. intros E. now rewrite E in Hne.
Qed.

(** X6. [WriteSingleLine] writes nothing, not even the prefix, and answers
    [false] for an empty paragraph.  For any other paragraph it answers
    [true] and writes the indentation, the escaped prefix and the escaped
    text of the paragraph as a single line: the blank spans at the end
    dropped, the last span that is left right-trimmed, and only the first
    piece with bytes left-trimmed. *)
Theorem WriteSingleLine_flattens (stream : raw_ostream) (para : Paragraph)
    (indent_ : nat) (prefix : Str) :
  (Para.empty para = true ->
   WriteSingleLine stream para indent_ prefix = (stream, false))
  /\ (Para.empty para = false ->
      WriteSingleLine stream para indent_ prefix
      = (stream ++ spaces indent_ ++ escape_spec prefix
           ++ escape_spec (single_line_text (Data para)),
         true)).
Proof.
  split; intros Hempty; rewrite WriteSingleLine_line, Hempty; reflexivity.
Qed.

Lemma WriteSingleLine_flattens_witness :
  WriteSingleLine "<d>" (mkParagraph [" " : Str; [] ] ParagraphType.Normal) 2 "T: "
  = ("<d>" : Str, false)
  /\ WriteSingleLine "<d>"
       (mkParagraph [[] ; " a < b" : Str; " or c " : Str; "  " : Str]
                    ParagraphType.Normal) 2 "T: "
     = ("<d>" ++ spaces 2 ++ escape_spec "T: "
          ++ escape_spec
               (single_line_text [[] ; " a < b" : Str; " or c " : Str; "  " : Str]),
        true).
Proof.
  split.
  - exact (proj1 (WriteSingleLine_flattens "<d>"
                    (mkParagraph [" " : Str; [] ] ParagraphType.Normal) 2 "T: ")
                 eq_refl).
  - exact (proj2 (WriteSingleLine_flattens "<d>"
                    (mkParagraph [[] ; " a < b" : Str; " or c " : Str; "  " : Str]
                                 ParagraphType.Normal) 2 "T: ")
                 eq_refl).
Defined.

Example single_line_text_example :
  single_line_text [[] ; " a < b" : Str; " or c " : Str; "  " : Str] = "a < b or c".
Proof. reflexivity. Qed.

Lemma drop_blank_app blanks r :
  forallb blank blanks = true -> drop_blank (blanks ++ r) = drop_blank r.
Proof.
  induction blanks as [|b blanks IH]; cbn [forallb app drop_blank]; [reflexivity|].
  intros H. apply andb_prop in H as [Hb H]. rewrite Hb. now apply IH.
Qed.

(** X7. Blank spans at the end of a paragraph change nothing of what
    [WriteSingleLine] writes and answers. *)
Theorem WriteSingleLine_trailing_blank (stream : raw_ostream) (data blanks : list Str)
    (type : ParagraphType.t) (indent_ : nat) (prefix : Str) :
  forallb blank blanks = true ->
  WriteSingleLine stream (mkParagraph (data ++ blanks) type) indent_ prefix
  = WriteSingleLine stream (mkParagraph data type) indent_ prefix.
Proof.
  intros Hb. rewrite !WriteSingleLine_line.
  unfold Para.empty, single_line_text. cbn [Data].
  change (fun data0 => StringRef.empty (StringRef.ltrim data0)) with blank.
  rewrite forallb_app, Hb, andb_true_r, rev_app_distr.
  rewrite drop_blank_app by now rewrite forallb_rev.
  reflexivity.
Qed.

Lemma WriteSingleLine_trailing_blank_witness :
  WriteSingleLine [] (mkParagraph (["Speed in px/s." : Str] ++ ["  " : Str; [] ])
                                  ParagraphType.Normal) 4 "[b]Note:[/b] "
  = WriteSingleLine [] (mkParagraph ["Speed in px/s." : Str] ParagraphType.Normal)
                    4 "[b]Note:[/b] ".
Proof.
  exact (WriteSingleLine_trailing_blank [] ["Speed in px/s." : Str] ["  " : Str; [] ]
           ParagraphType.Normal 4 "[b]Note:[/b] " eq_refl).
Defined.

(** ** The paragraph loop, continued *)

Lemma skip_empty_length l : length (skip_empty l) <= length l.
Proof.
  induction l as [|p l IH]; cbn [skip_empty length]; [lia|].
  destruct (Para.empty p); cbn [length]; lia.
Qed.

Lemma Write_step_empty indent_ prefix it rest stream newPara :
  Para.empty it = true ->
  Write_step indent_ prefix it rest stream newPara = (stream, newPara, rest).
Proof. intros H. unfold Write_step. now rewrite H. Qed.

Lemma Write_step_nonempty indent_ prefix it rest newPara :
  Para.empty it = false ->
  exists text rest',
    (forall stream,
        Write_step indent_ prefix it rest stream newPara
        = ((if newPara then stream << nl else stream) ++ text, true, rest'))
    /\ length rest' <= length rest.
Proof.
  intros Hne. unfold Write_step. rewrite Hne. cbn [negb].
  destruct (Type_ it) eqn:Htype.
  - eexists _, rest. split; [|lia]. intros stream.
    rewrite WriteSingleLine_line, Hne. reflexivity.
  - eexists _, rest. split; [|lia]. intros stream.
    rewrite WriteSingleLine_line, Hne. reflexivity.
  - eexists _, rest. split; [|lia]. intros stream.
    rewrite WriteVerbatim_app. unfold indent, put. rewrite <- !app_assoc. reflexivity.
  - pose proof (skip_empty_length rest) as Hlen.
    destruct (skip_empty rest) as [|next after];
      [|destruct (IsDifferentLanguage ParagraphType.GDScript (Type_ next))].
    + eexists _, rest. split; [|lia]. intros stream. now rewrite write_codeblock_text.
    + eexists _, after. split; [|cbn [length] in Hlen; lia]. intros stream.
      now rewrite write_codeblocks_text.
    + eexists _, rest. split; [|lia]. intros stream. now rewrite write_codeblock_text.
  - pose proof (skip_empty_length rest) as Hlen.
    destruct (skip_empty rest) as [|next after];
      [|destruct (IsDifferentLanguage ParagraphType.CSharpCode (Type_ next))].
    + eexists _, rest. split; [|lia]. intros stream. now rewrite write_codeblock_text.
    + eexists _, after. split; [|cbn [length] in Hlen; lia]. intros stream.
      now rewrite write_codeblocks_text.
    + eexists _, rest. split; [|lia]. intros stream. now rewrite write_codeblock_text.
Qed.

Lemma Write_loop_app_bounded indent_ prefix n :
  forall paras, length paras <= n -> forall stream newPara,
  Write_loop indent_ prefix paras stream newPara
  = (stream ++ fst (Write_loop indent_ prefix paras [] newPara),
     snd (Write_loop indent_ prefix paras [] newPara)).
Proof.
  induction n as [|n IH]; intros [|it rest] Hlen stream newPara;
    try (cbn [length] in Hlen; lia);
    try (simp Write_loop; cbn [fst snd]; now rewrite app_nil_r).
  cbn [length] in Hlen. rewrite !Write_loop_cons.
  destruct (Para.empty it) eqn:Hit.
  - rewrite !(Write_step_empty _ _ _ _ _ _ Hit). apply IH. lia.
  - destruct (Write_step_nonempty indent_ prefix it rest newPara Hit)
      as (text & rest' & Hstep & Hrest).
    rewrite !Hstep.
    rewrite (IH rest' ltac:(lia) ((if newPara then stream << nl else stream) ++ text)).
    rewrite (IH rest' ltac:(lia) ((if newPara then [] << nl else []) ++ text)).
    cbn [fst snd]. f_equal.
    destruct newPara; unfold put; cbn [app]; now rewrite <- !app_assoc.
Qed.

(** X8. [Write] only appends: what it adds to the stream, and what it
    answers, do not depend on what the stream holds already. *)
Theorem Write_appends (stream : raw_ostream) (paras : Paragraphs) (indent_ : nat)
    (prefix : Str) :
  Write stream paras indent_ prefix
  = (stream ++ fst (Write [] paras indent_ prefix),
     snd (Write [] paras indent_ prefix)).
Proof. unfold Write. now apply (Write_loop_app_bounded _ _ (length paras)). Qed.

Lemma Write_loop_flag_bounded indent_ prefix n :
  forall paras, length paras <= n -> forall stream newPara,
  snd (Write_loop indent_ prefix paras stream newPara)
  = newPara || existsb (fun p => negb (Para.empty p)) paras.
Proof.
  induction n as [|n IH]; intros [|it rest] Hlen stream newPara;
    try (cbn [length] in Hlen; lia);
    try (simp Write_loop; cbn [snd existsb]; now rewrite orb_false_r).
  cbn [length] in Hlen. rewrite Write_loop_cons. cbn [existsb].
  destruct (Para.empty it) eqn:Hit.
  - rewrite (Write_step_empty _ _ _ _ _ _ Hit). cbn [negb orb]. apply IH. lia.
  - destruct (Write_step_nonempty indent_ prefix it rest newPara Hit)
      as (text & rest' & Hstep & Hrest).
    rewrite Hstep, (IH rest' ltac:(lia)). cbn [negb orb]. now rewrite orb_true_r.
Qed.

Lemma Write_app_text paras indent_ prefix :
  exists text written, forall os,
    Write os paras indent_ prefix = (os ++ text, written).
Proof.
  eexists _, _. intros os. unfold Write.
  apply (Write_loop_app_bounded _ _ (length paras)). lia.
Qed.

(** X9. [Write] answers [true] exactly when one of the paragraphs is not
    empty. *)
Theorem Write_answers_content (stream : raw_ostream) (paras : Paragraphs)
    (indent_ : nat) (prefix : Str) :
  snd (Write stream paras indent_ prefix)
  = existsb (fun p => negb (Para.empty p)) paras.
Proof. unfold Write. now rewrite (Write_loop_flag_bounded _ _ (length paras)). Qed.

Lemma skip_empty_filter rest :
  skip_empty (filter (fun p => negb (Para.empty p)) rest)
  = match skip_empty rest with
    | [] => []
    | next :: after => next :: filter (fun p => negb (Para.empty p)) after
    end.
Proof.
  induction rest as [|p rest IH]; cbn [filter skip_empty]; [reflexivity|].
  destruct (Para.empty p) eqn:Hp; cbn [negb]; [exact IH|].
  cbn [skip_empty]. now rewrite Hp.
Qed.

Lemma Write_step_filter indent_ prefix it rest stream newPara :
  Para.empty it = false ->
  Write_step indent_ prefix it (filter (fun p => negb (Para.empty p)) rest)
             stream newPara
  = let '(stream', newPara', rest') :=
      Write_step indent_ prefix it rest stream newPara in
    (stream', newPara', filter (fun p => negb (Para.empty p)) rest').
Proof.
  intros Hne. unfold Write_step. rewrite Hne. cbn [negb].
  destruct (Type_ it); try reflexivity.
  - now destruct (WriteSingleLine _ it indent_ _).
  - rewrite skip_empty_filter. destruct (skip_empty rest) as [|next after];
      [reflexivity|]. now destruct (IsDifferentLanguage _ _).
  - rewrite skip_empty_filter. destruct (skip_empty rest) as [|next after];
      [reflexivity|]. now destruct (IsDifferentLanguage _ _).
Qed.

Lemma Write_loop_filter_bounded indent_ prefix n :
  forall paras, length paras <= n -> forall stream newPara,
  Write_loop indent_ prefix paras stream newPara
  = Write_loop indent_ prefix (filter (fun p => negb (Para.empty p)) paras)
               stream newPara.
Proof.
  induction n as [|n IH]; intros [|it rest] Hlen stream newPara;
    try (cbn [length] in Hlen; lia); try reflexivity.
  cbn [length] in Hlen. cbn [filter]. rewrite Write_loop_cons.
  destruct (Para.empty it) eqn:Hit; cbn [negb].
  - rewrite (Write_step_empty _ _ _ _ _ _ Hit). apply IH. lia.
  - rewrite Write_loop_cons, (Write_step_filter _ _ _ _ _ _ Hit).
    destruct (Write_step_nonempty indent_ prefix it rest newPara Hit)
      as (text & rest' & Hstep & Hrest).
    rewrite Hstep. apply IH. lia.
Qed.

(** X10. Empty paragraphs do not count: [Write] does on a sequence what it
    does on the sequence without its empty paragraphs. *)
Theorem Write_skips_empty (stream : raw_ostream) (paras : Paragraphs) (indent_ : nat)
    (prefix : Str) :
  Write stream paras indent_ prefix
  = Write stream (filter (fun p => negb (Para.empty p)) paras) indent_ prefix.
Proof. unfold Write. now apply (Write_loop_filter_bounded _ _ (length paras)). Qed.

Lemma Write_loop_prefix_unused indent_ prefix prefix' n :
  forall paras, length paras <= n -> forall stream,
  Write_loop indent_ prefix paras stream true
  = Write_loop indent_ prefix' paras stream true.
Proof.
  induction n as [|n IH]; intros [|it rest] Hlen stream;
    try (cbn [length] in Hlen; lia); try (now simp Write_loop).
  cbn [length] in Hlen. rewrite !Write_loop_cons.
  replace (Write_step indent_ prefix' it rest stream true)
    with (Write_step indent_ prefix it rest stream true) by reflexivity.
  destruct (Para.empty it) eqn:Hit.
  - rewrite (Write_step_empty _ _ _ _ _ _ Hit). apply IH. lia.
  - destruct (Write_step_nonempty indent_ prefix it rest true Hit)
      as (text & rest' & Hstep & Hrest).
    rewrite Hstep. apply IH. lia.
Qed.

Lemma Write_loop_skip_empty indent_ prefix paras stream newPara :
  Write_loop indent_ prefix paras stream newPara
  = Write_loop indent_ prefix (skip_empty paras) stream newPara.
Proof.
  induction paras as [|p paras IH]; cbn [skip_empty]; [reflexivity|].
  destruct (Para.empty p) eqn:Hp; [|reflexivity].
  now rewrite Write_loop_cons, (Write_step_empty _ _ _ _ _ _ Hp).
Qed.

Lemma Write_first_written (stream : raw_ostream) (paras : Paragraphs) (indent_ : nat)
    (prefix : Str) :
  match skip_empty paras with
  | [] => Write stream paras indent_ prefix = (stream, false)
  | it :: rest =>
      if ParagraphType.eqb (Type_ it) ParagraphType.Normal
      then Write stream paras indent_ prefix
           = Write_loop indent_ []  rest
               (stream ++ spaces indent_ ++ escape_spec prefix
                  ++ escape_spec (single_line_text (Data it)))
               true
      else Write stream paras indent_ prefix = Write stream paras indent_ []
  end.
Proof.
  unfold Write. rewrite !(Write_loop_skip_empty _ _ paras).
  assert (Hhead : match skip_empty paras with
                  | [] => True
                  | it :: _ => Para.empty it = false
                  end).
  { induction paras as [|p paras IH]; cbn [skip_empty]; [exact I|].
    destruct (Para.empty p) eqn:Hp; [exact IH|exact Hp]. }
  destruct (skip_empty paras) as [|it rest]; [now simp Write_loop|].
  destruct (ParagraphType.eqb (Type_ it) ParagraphType.Normal) eqn:Htype.
  - apply ParagraphType_eqb_eq in Htype.
    rewrite Write_loop_cons. unfold Write_step. rewrite Hhead, Htype. cbn [negb].
    rewrite WriteSingleLine_line, Hhead. cbn [orb].
    apply (Write_loop_prefix_unused _ _ _ (length rest)). lia.
  - rewrite !Write_loop_cons.
    replace (Write_step indent_ [] it rest stream false)
      with (Write_step indent_ prefix it rest stream false).
    + destruct (Write_step_nonempty indent_ prefix it rest false Hhead)
        as (text & rest' & Hstep & Hrest).
      rewrite Hstep. apply (Write_loop_prefix_unused _ _ _ (length rest')). lia.
    + unfold Write_step. destruct (Type_ it); try reflexivity. discriminate.
Qed.

(** X11. The prefix of [Write] goes with the first paragraph that is
    written and with no other.  If that paragraph is of the kind [Normal],
    the prefix is written in front of its line; if it is of another kind, or
    if no paragraph is written, the prefix is not written at all. *)
Theorem Write_prefix_once (stream : raw_ostream) (paras : Paragraphs) (indent_ : nat)
    (prefix : Str) :
  (skip_empty paras = [] -> Write stream paras indent_ prefix = (stream, false))
  /\ (forall it rest,
        skip_empty paras = it :: rest -> Type_ it = ParagraphType.Normal ->
        Write stream paras indent_ prefix
        = Write_loop indent_ [] rest
            (stream ++ spaces indent_ ++ escape_spec prefix
               ++ escape_spec (single_line_text (Data it)))
            true)
  /\ (forall it rest,
        skip_empty paras = it :: rest -> Type_ it <> ParagraphType.Normal ->
        Write stream paras indent_ prefix = Write stream paras indent_ []).
Proof.
  pose proof (Write_first_written stream paras indent_ prefix) as H.
  split; [|split].
  - intros E. now rewrite E in H.
  - intros it rest E Hkind. rewrite E, Hkind in H. exact H.
  - intros it rest E Hkind. rewrite E in H.
    destruct (ParagraphType.eqb (Type_ it) ParagraphType.Normal) eqn:Heq; [|exact H].
    apply ParagraphType_eqb_eq in Heq. contradiction.
Qed.

Lemma Write_prefix_once_witness :
  Write [] [mkParagraph [" " : Str] ParagraphType.Normal;
            mkParagraph ["item" : Str] ParagraphType.List;
            mkParagraph ["text" : Str] ParagraphType.Normal] 0 "[b]Since:[/b] "
  = Write [] [mkParagraph [" " : Str] ParagraphType.Normal;
              mkParagraph ["item" : Str] ParagraphType.List;
              mkParagraph ["text" : Str] ParagraphType.Normal] 0 [].
Proof.
  refine (proj2 (proj2 (Write_prefix_once []
                          [mkParagraph [" " : Str] ParagraphType.Normal;
                           mkParagraph ["item" : Str] ParagraphType.List;
                           mkParagraph ["text" : Str] ParagraphType.Normal]
                          0 "[b]Since:[/b] "))
                (mkParagraph ["item" : Str] ParagraphType.List)
                [mkParagraph ["text" : Str] ParagraphType.Normal] eq_refl _).
  discriminate.
Defined.

(** ** Sections, records and attributes *)

(** X12. [WriteOptionalSection] does nothing for a section without
    paragraphs.  For any other section it sets [newPara], also when every
    paragraph is empty, and then it writes the separating line feed alone;
    the title is written with the first paragraph that is not empty if that
    one is of the kind [Normal], and not at all otherwise. *)
Theorem WriteOptionalSection_cases (os : raw_ostream) (newPara : bool) (title : Str)
    (paragraphs : Paragraphs) (indent_ : nat) :
  let sep := if newPara then os ++ nl else os in
  match paragraphs with
  | [] => WriteOptionalSection os newPara title paragraphs indent_ = (os, newPara)
  | _ :: _ =>
      snd (WriteOptionalSection os newPara title paragraphs indent_) = true
      /\ match skip_empty paragraphs with
         | [] => fst (WriteOptionalSection os newPara title paragraphs indent_) = sep
         | it :: rest =>
             if ParagraphType.eqb (Type_ it) ParagraphType.Normal
             then fst (WriteOptionalSection os newPara title paragraphs indent_)
                  = fst (Write_loop indent_ [] rest
                           (sep ++ spaces indent_ ++ escape_spec (Title title)
                              ++ escape_spec (single_line_text (Data it)))
                           true)
             else fst (WriteOptionalSection os newPara title paragraphs indent_)
                  = fst (Write sep paragraphs indent_ [])
         end
  end.
Proof.
  intros sep. destruct paragraphs as [|p paragraphs]; [reflexivity|].
  unfold WriteOptionalSection. cbn [Paragraphs_empty negb fst snd].
  split; [reflexivity|].
  pose proof (Write_first_written sep (p :: paragraphs) indent_ (Title title)) as H.
  subst sep. destruct newPara; unfold put;
    (destruct (skip_empty (p :: paragraphs)) as [|it rest]; [now rewrite H|]);
    destruct (ParagraphType.eqb (Type_ it) ParagraphType.Normal); now rewrite H.
Qed.

Lemma WriteSingleLine_appends para indent_ prefix :
  exists text, forall os,
    WriteSingleLine os para indent_ prefix = (os ++ text, negb (Para.empty para)).
Proof.
  destruct (Para.empty para) eqn:E.
  - exists []. intros os. rewrite WriteSingleLine_line, E. now rewrite app_nil_r.
  - eexists. intros os. rewrite WriteSingleLine_line, E. reflexivity.
Qed.

Lemma WriteOptionalSection_appends newPara title paragraphs indent_ :
  exists text newPara', forall os,
    WriteOptionalSection os newPara title paragraphs indent_ = (os ++ text, newPara').
Proof.
  unfold WriteOptionalSection. destruct (Paragraphs_empty paragraphs); cbn [negb].
  - exists [], newPara. intros os. now rewrite app_nil_r.
  - destruct (Write_app_text paragraphs indent_ (Title title)) as (text & written & Hw).
    destruct newPara; eexists _, true; intros os; rewrite Hw; cbn [fst];
      unfold put; rewrite <- ?app_assoc; reflexivity.
Qed.

Lemma write_parameters_appends params indent_ :
  exists text, forall os, write_parameters os params indent_ = os ++ text.
Proof.
  unfold write_parameters. induction params as [|param params (text & IH)];
    cbn [fold_left].
  - exists []. intros os. now rewrite app_nil_r.
  - destruct (WriteSingleLine_appends (Description param) indent_
                (bullet ++ "[b][code]" ++ Name param ++ "[/code]:[/b] "))
      as (line & Hline).
    eexists. intros os. rewrite Hline. cbn [fst]. rewrite IH.
    unfold put. rewrite <- !app_assoc. reflexivity.
Qed.

Lemma write_function_info_appends doc newPara indent_ :
  exists text newPara', forall os,
    write_function_info doc os newPara indent_ = (os ++ text, newPara').
Proof.
  unfold write_function_info.
  destruct (WriteOptionalSection_appends newPara "Preconditions" (Preconditions doc)
              indent_) as (t1 & n1 & H1).
  destruct (WriteOptionalSection_appends n1 "Postconditions" (Postconditions doc)
              indent_) as (t2 & n2 & H2).
  destruct (write_parameters_appends (ParameterDescs doc) indent_) as (t3 & H3).
  destruct (WriteSingleLine_appends (ReturnDesc doc) indent_ (Title "Return"))
    as (t4 & H4).
  destruct (write_parameters_appends (ReturnValues doc) indent_) as (t5 & H5).
  destruct (Parameters_empty (ParameterDescs doc)), (Para.empty (ReturnDesc doc)),
    (Parameters_empty (ReturnValues doc)), n2;
    cbn [negb]; eexists _, _; intros os;
    rewrite H1, H2, ?H3, ?H4, ?H5; cbn [fst]; rewrite ?H3, ?H4, ?H5;
    unfold indent, put; rewrite <- ?app_assoc; reflexivity.
Qed.

(** X13. [WriteDetailed] only appends: the text of a record is the same
    whatever the stream holds already. *)
Theorem WriteDetailed_appends (doc : ParsedDocumentation) (os : raw_ostream)
    (printBrief printFunctionInfo : bool) (indent_ : nat) :
  WriteDetailed doc os printBrief printFunctionInfo indent_
  = os ++ WriteDetailed doc [] printBrief printFunctionInfo indent_.
Proof.
  assert (H : exists text, forall os,
             WriteDetailed doc os printBrief printFunctionInfo indent_ = os ++ text).
  { unfold WriteDetailed.
    destruct (Write_app_text (Detailed doc) indent_ []) as (t1 & b1 & H1).
    destruct (WriteSingleLine_appends (Brief doc) indent_ []) as (t0 & H0).
    set (n0 := printBrief && negb (Para.empty (Brief doc))).
    set (n1 := if existsb (fun para => negb (Para.empty para)) (Detailed doc)
               then true else n0).
    destruct (WriteOptionalSection_appends n1 "Since" (Since doc) indent_)
      as (t2 & n2 & H2).
    destruct (write_function_info_appends doc n2 indent_) as (t3 & n3 & H3).
    set (n3' := if printFunctionInfo then n3 else n2).
    destruct (WriteOptionalSection_appends n3' "Authors" (Author doc) indent_)
      as (t4 & n4 & H4).
    destruct (WriteOptionalSection_appends n4 "Version" (Version doc) indent_)
      as (t5 & n5 & H5).
    destruct (WriteOptionalSection_appends n5 "Copyright" (Copyright doc) indent_)
      as (t6 & n6 & H6).
    subst n0 n1 n3'.
    destruct printBrief, (Para.empty (Brief doc)),
      (existsb (fun para => negb (Para.empty para)) (Detailed doc)),
      printFunctionInfo;
      cbn [andb negb]; eexists; intros os0;
      rewrite ?H0; cbn [fst]; rewrite ?H1; cbn [fst];
      rewrite H2, ?H3, H4, H5, H6;
      unfold put; rewrite <- ?app_assoc; reflexivity. }
  destruct H as (text & H). rewrite (H os), (H []). reflexivity.
Qed.

(** X14. A record without content gives no text: with [printBrief] off or
    the brief description empty, every detailed paragraph empty, the titled
    sections without paragraphs and, when [printFunctionInfo] is on, no
    parameter, return description or return value, [WriteDetailed] leaves
    the stream as it is. *)
Theorem WriteDetailed_nothing (doc : ParsedDocumentation) (os : raw_ostream)
    (printBrief printFunctionInfo : bool) (indent_ : nat) :
  printBrief = false \/ Para.empty (Brief doc) = true ->
  forallb Para.empty (Detailed doc) = true ->
  Since doc = [] -> Author doc = [] -> Version doc = [] -> Copyright doc = [] ->
  printFunctionInfo = false
  \/ (Preconditions doc = [] /\ Postconditions doc = [] /\ ParameterDescs doc = []
      /\ Para.empty (ReturnDesc doc) = true /\ ReturnValues doc = []) ->
  WriteDetailed doc os printBrief printFunctionInfo indent_ = os.
Proof.
  intros Hbrief Hdet Hsince Hauthor Hversion Hcopy Hfun.
  unfold WriteDetailed.
  assert (E0 : printBrief && negb (Para.empty (Brief doc)) = false).
  { destruct Hbrief as [-> | ->]; [reflexivity|apply andb_false_r]. }
  assert (E1 : existsb (fun para => negb (Para.empty para)) (Detailed doc) = false).
  { clear -Hdet. induction (Detailed doc) as [|p l IH]; [reflexivity|].
    cbn [forallb existsb] in *. apply andb_prop in Hdet as [Hp Hl].
    now rewrite Hp, IH. }
  rewrite E0, E1, Hsince, Hauthor, Hversion, Hcopy.
  cbn [WriteOptionalSection Paragraphs_empty negb].
  destruct Hfun as [-> | (Hpre & Hpost & Hparams & Hret & Hvals)]; [reflexivity|].
  destruct printFunctionInfo; [|reflexivity].
  unfold write_function_info. rewrite Hpre, Hpost, Hparams, Hret, Hvals. reflexivity.
Qed.

Lemma WriteDetailed_nothing_witness :
  WriteDetailed
    (Doc.set_Brief (mkParagraph ["  " : Str] ParagraphType.Normal)
       (Doc.set_Detailed [mkParagraph [[] ; " " : Str] ParagraphType.List]
                         ParsedDocumentation_empty))
    "<description>" true true 8
  = "<description>".
Proof.
  apply WriteDetailed_nothing; try reflexivity.
  - right. reflexivity.
  - right. repeat split; reflexivity.
Defined.

Lemma single_line_text_empty para :
  Para.empty para = true -> single_line_text (Data para) = [].
Proof.
  intros H. unfold single_line_text.
  assert (E : drop_blank (rev (Data para)) = []).
  { apply drop_blank_nil. now rewrite forallb_rev. }
  now rewrite E.
Qed.

Lemma write_status_text os key tag :
  write_status os key tag
  = os ++ (if IsTagPresent tag
           then key ++ [quot] ++ escape_spec (single_line_text (Data (Message tag)))
                  ++ [quot]
           else []).
Proof.
  unfold write_status. destruct (IsTagPresent tag); [|now rewrite app_nil_r].
  rewrite WriteSingleLine_line.
  destruct (Para.empty (Message tag)) eqn:E; cbn [fst]; unfold put, spaces.
  - rewrite (single_line_text_empty _ E). cbn. now rewrite <- !app_assoc.
  - cbn [repeat escape_spec flat_map app]. now rewrite <- !app_assoc.
Qed.

(** X15. [WriteAttributes] writes nothing for a status that is not present
    and, for one that is, the key and the message as a single escaped line
    between double quotes; no double quote, [<] or [>] stands inside the
    quotes, so the value cannot end early or open a tag. *)
Theorem WriteAttributes_values (doc : ParsedDocumentation) (os : raw_ostream) :
  let value tag := escape_spec (single_line_text (Data (Message tag))) in
  WriteAttributes doc os
  = os ++ (if IsTagPresent (Deprecated doc)
           then " deprecated=" ++ [quot] ++ value (Deprecated doc) ++ [quot]
           else [])
       ++ (if IsTagPresent (Experimental doc)
           then " experimental=" ++ [quot] ++ value (Experimental doc) ++ [quot]
           else [])
  /\ (forall tag x, In x [quot; "<"%char; ">"%char] -> ~ In x (value tag)).
Proof.
  intros value. split.
  - unfold WriteAttributes. rewrite !write_status_text. now rewrite <- app_assoc.
  - intros tag x Hx. apply escape_spec_clean. simpl in *. tauto.
Qed.

Lemma WriteAttributes_values_witness :
  ~ In quot (escape_spec (single_line_text ["Use " : Str; quot :: "run" ++ [quot]])).
Proof.
  refine (proj2 (WriteAttributes_values ParsedDocumentation_empty [])
                (mkStatusTag true
                   (mkParagraph ["Use " : Str; quot :: "run" ++ [quot]]
                                ParagraphType.Normal))
                quot _).
  simpl. tauto.
Defined.

(** ** Reference resolution, continued *)

Lemma skipn_past k (c : ascii) r : skipn (length k + 1) (k ++ c :: r) = r.
Proof. induction k as [|x k IH]; cbn [length Nat.add app skipn]; [reflexivity|exact IH]. Qed.

Lemma substr_prefix k r : StringRef.substr (k ++ r) 0 (length k) = k.
Proof.
  unfold StringRef.substr. cbn [skipn].
  rewrite firstn_app, firstn_all, Nat.sub_diag. cbn [firstn]. apply app_nil_r.
Qed.

Lemma find_if_existsb {A} p s (x y : A) :
  match StringRef.find_if p s with Some _ => x | None => y end
  = if existsb p s then x else y.
Proof.
  induction s as [|c s IH]; cbn [StringRef.find_if existsb]; [reflexivity|].
  destruct (p c); cbn [orb]; [reflexivity|].
  destruct (StringRef.find_if p s); cbn [option_map]; exact IH.
Qed.

Lemma find_after_colon p k r {A} (x y : A) :
  match StringRef.find_from p (k ++ ":"%char :: r) (length k + 1) with
  | Some _ => x
  | None => y
  end
  = if existsb p r then x else y.
Proof.
  unfold StringRef.find_from. rewrite skipn_past, <- (find_if_existsb p r x y).
  now destruct (StringRef.find_if p r).
Qed.

(** X16. For a token [kind:rest] whose kind is one of [annotation],
    [constant], [enum], [member], [method], [constructor], [signal] and
    [theme_item], the reference is [[kind rest]] when [rest] holds a period,
    and [[kind owner.rest]] with the current owner when it holds none. *)
Theorem ParseReference_member_kinds (className kind rest : Str) :
  In kind member_kinds ->
  ParseReference (kind ++ ":" ++ rest) className
  = if existsb (Ascii.eqb ".") rest
    then "[" ++ kind ++ " " ++ rest ++ "]"
    else "[" ++ kind ++ " " ++ className ++ "." ++ rest ++ "]".
Proof.
  intros Hkind.
  assert (Hfacts : ~ In ":"%char kind /\ (kind == "operator") = false
                   /\ is_ref_kind kind = true).
  { unfold member_kinds in Hkind. cbn [In] in Hkind.
    repeat (destruct Hkind as [<-|Hkind];
            [split; [not_in_closed_list|split; reflexivity]|]).
    contradiction. }
  destruct Hfacts as (Hcolon & Hop & Href).
  unfold ParseReference.
  change (kind ++ ":" ++ rest) with (kind ++ ":"%char :: rest).
  rewrite (find_first_colon _ _ Hcolon), substr_prefix, Hop, Href.
  unfold StringRef.find. rewrite find_after_colon.
  unfold StringRef.substr_from. rewrite skipn_past. reflexivity.
Qed.

Lemma ParseReference_member_kinds_witness :
  ParseReference ("signal" ++ ":" ++ "pressed") "Button" = "[signal Button.pressed]".
Proof.
  apply (ParseReference_member_kinds "Button" "signal" "pressed").
  unfold member_kinds. simpl. tauto.
Defined.

(** X17. For a token [operator:rest], the reference names the operator of
    the current owner when [rest] holds no period; when it holds one, the
    text up to its first period is the owner and all behind that period is
    the operator, and the current owner is not used. *)
Theorem ParseReference_operator (className rest owner op : Str) :
  (~ In "."%char rest ->
   ParseReference ("operator:" ++ rest) className
   = "[operator " ++ className ++ ".operator " ++ rest ++ "]")
  /\ (~ In "."%char owner ->
      ParseReference ("operator:" ++ owner ++ "." ++ op) className
      = "[operator " ++ owner ++ ".operator " ++ op ++ "]").
Proof.
  assert (Hcolon : ~ In ":"%char ("operator" : Str)) by not_in_closed_list.
  assert (Hhead : forall r,
    ParseReference ("operator:" ++ r) className
    = match StringRef.find_if (Ascii.eqb ".") r with
      | Some n =>
          "[operator " ++ firstn (n + 1) r ++ "operator " ++ skipn (n + 1) r ++ "]"
      | None => "[operator " ++ className ++ ".operator " ++ r ++ "]"
      end).
  { intros r. unfold ParseReference.
    change ("operator:" ++ r) with (("operator" : Str) ++ ":"%char :: r).
    rewrite (find_first_colon _ _ Hcolon), substr_prefix.
    change (("operator" : Str) == "operator") with true. cbv iota.
    unfold StringRef.find, StringRef.find_from, StringRef.substr,
      StringRef.substr_from.
    rewrite skipn_past.
    destruct (StringRef.find_if (Ascii.eqb ".") r) as [n|]; cbn [option_map];
      [|reflexivity].
    replace (length ("operator" : Str) + 1 + n - length ("operator" : Str))
      with (n + 1) by lia.
    replace (length ("operator" : Str) + 1 + n + 1)
      with ((n + 1) + (length ("operator" : Str) + 1)) by lia.
    rewrite <- skipn_skipn, skipn_past. reflexivity. }
  split.
  - intros Hn. rewrite Hhead.
    now rewrite (find_if_all_false _ _ (notin_forallb _ _ Hn)).
  - intros Hn. rewrite Hhead.
    change (owner ++ "." ++ op) with (owner ++ "."%char :: op).
    rewrite (find_if_app_first _ _ _ _ (notin_forallb _ _ Hn) (Ascii.eqb_refl _)).
    rewrite skipn_past.
    rewrite firstn_app, firstn_all2 by lia.
    replace (length owner + 1 - length owner) with 1 by lia.
    cbn [firstn]. now rewrite <- app_assoc.
Qed.

Lemma ParseReference_operator_witness :
  ParseReference ("operator:" ++ "==") "Color" = "[operator Color.operator ==]"
  /\ ParseReference ("operator:" ++ "Vector2" ++ "." ++ "*") "Color"
     = "[operator Vector2.operator *]".
Proof.
  split.
  - apply (proj1 (ParseReference_operator "Color" "==" [] [])). not_in_closed_list.
  - apply (proj2 (ParseReference_operator "Color" [] "Vector2" "*")).
    not_in_closed_list.
Defined.

(** ** Collecting the text of a paragraph *)

Lemma Para_add_type para text : Type_ (Para.add para text) = Type_ para.
Proof. unfold Para.add. now destruct (ParagraphType.eqb _ _). Qed.

Lemma Para_add_same_type para text :
  Type_ para = Type_ text ->
  Para.add para text = mkParagraph (Data para ++ Data text) (Type_ para).
Proof.
  intros H. unfold Para.add. rewrite H.
  now rewrite (proj2 (ParagraphType_eqb_eq _ _) eq_refl).
Qed.

Lemma ParseInlineCommand_appends className cmd args result :
  ParseInlineCommand className cmd args result
  = mkParagraph
      (Data result
         ++ Data (ParseInlineCommand className cmd args
                    (Paragraph_new ParagraphType.Normal)))
      (Type_ result).
Proof.
  unfold ParseInlineCommand. rewrite !fold_add_text.
  repeat match goal with |- context [if ?b then _ else _] => destruct b end;
    cbn [Para.add_text Data Type_ Paragraph_new app];
    rewrite <- ?app_assoc, ?app_nil_r; try reflexivity;
    now destruct result.
Qed.

Lemma ParseComments_child_type className result c :
  Type_ (ParseComments_child className result c) = Type_ result.
Proof.
  destruct c; cbn [ParseComments_child]; try reflexivity;
    try apply Para_add_type.
  now rewrite ParseInlineCommand_appends.
Qed.

Lemma ParseComments_fold_type className children result :
  Type_ (fold_left (ParseComments_child className) children result) = Type_ result.
Proof.
  revert result; induction children as [|c children IH]; intros result;
    cbn [fold_left]; [reflexivity|].
  now rewrite IH, ParseComments_child_type.
Qed.

Lemma ParseComments_kind (children : list Comment) (className : Str) :
  Type_ (ParseComments children className) = ParagraphType.Normal.
Proof. unfold ParseComments. now rewrite ParseComments_fold_type. Qed.

(** X18. The paragraph that [ParseComments] collects is of the kind
    [Normal], whatever the children are; so appending it to a paragraph of
    the kind [Normal] always adds its spans, and the case in which the
    append drops them does not arise for collected text. *)
Theorem ParseComments_Normal (children : list Comment) (className : Str)
    (result : Paragraph) :
  Type_ (ParseComments children className) = ParagraphType.Normal
  /\ (Type_ result = ParagraphType.Normal ->
      Para.add result (ParseComments children className)
      = mkParagraph (Data result ++ Data (ParseComments children className))
                    ParagraphType.Normal).
Proof.
  split; [apply ParseComments_kind|].
  intros Hr. rewrite Para_add_same_type by now rewrite ParseComments_kind.
  now rewrite Hr.
Qed.

Lemma ParseComments_Normal_witness :
  Para.add (mkParagraph ["Returns " : Str] ParagraphType.Normal)
           (ParseComments [TextComment "the speed."] "Player")
  = mkParagraph
      (["Returns " : Str] ++ Data (ParseComments [TextComment "the speed."] "Player"))
      ParagraphType.Normal.
Proof.
  exact (proj2 (ParseComments_Normal [TextComment "the speed."] "Player"
                  (mkParagraph ["Returns " : Str] ParagraphType.Normal)) eq_refl).
Defined.

Lemma ParseComments_child_appends className result c :
  Type_ result = ParagraphType.Normal ->
  ParseComments_child className result c
  = mkParagraph
      (Data result
         ++ Data (ParseComments_child className (Paragraph_new ParagraphType.Normal) c))
      ParagraphType.Normal.
Proof.
  intros Hr.
  assert (Hnested : forall block,
    Para.add result (ParseComments block className)
    = mkParagraph
        (Data result
           ++ Data (Para.add (Paragraph_new ParagraphType.Normal)
                             (ParseComments block className)))
        ParagraphType.Normal).
  { intros block. rewrite !Para_add_same_type
      by (rewrite ParseComments_kind; auto). now rewrite Hr. }
  destruct c; cbn [ParseComments_child];
    try apply Hnested;
    try (cbn [Paragraph_new Data]; rewrite app_nil_r; destruct result;
         cbn [Type_] in Hr; now subst).
  - unfold Para.add_text. now rewrite Hr.
  - rewrite ParseInlineCommand_appends. now rewrite Hr.
Qed.

Lemma ParseComments_fold_appends className children result :
  Type_ result = ParagraphType.Normal ->
  fold_left (ParseComments_child className) children result
  = mkParagraph (Data result ++ Data (ParseComments children className))
                ParagraphType.Normal.
Proof.
  unfold ParseComments.
  revert result; induction children as [|c children IH]; intros result Hr;
    cbn [fold_left].
  - cbn [Paragraph_new Data]. rewrite app_nil_r. destruct result.
    cbn [Type_] in Hr. now subst.
  - rewrite (IH (ParseComments_child className result c))
      by now rewrite ParseComments_child_type.
    rewrite (IH (ParseComments_child className (Paragraph_new ParagraphType.Normal) c))
      by now rewrite ParseComments_child_type.
    rewrite (ParseComments_child_appends _ result c Hr). cbn [Data].
    now rewrite <- app_assoc.
Qed.

(** X19. [ParseComments] splices: the spans of a sequence of children are
    the spans of its parts one after the other, and a nested paragraph or
    block command gives the spans of its own children, so that nothing of a
    nested node is dropped; the name and the arguments of a nested block
    command are not used. *)
Theorem ParseComments_splices (className command : Str) (args : list Str)
    (first second block : list Comment) :
  Data (ParseComments (first ++ second) className)
  = Data (ParseComments first className) ++ Data (ParseComments second className)
  /\ ParseComments [ParagraphComment block] className = ParseComments block className
  /\ ParseComments [BlockCommandComment command args block] className
     = ParseComments block className.
Proof.
  assert (Hnested : Para.add (Paragraph_new ParagraphType.Normal)
                             (ParseComments block className)
                    = ParseComments block className).
  { rewrite Para_add_same_type by now rewrite ParseComments_kind.
    cbn [Paragraph_new Data Type_ app].
    pose proof (ParseComments_kind block className) as H.
    destruct (ParseComments block className). cbn [Type_] in H. now subst. }
  split; [|split; exact Hnested].
  unfold ParseComments at 1. rewrite fold_left_app.
  rewrite ParseComments_fold_appends by apply ParseComments_fold_type.
  reflexivity.
Qed.

(** ** Block commands, continued *)

(** Goes through the chain of comparisons of [ParseBlock] in its order: for
    each known name, [tac] closes the case in which [command] is that name. *)
Ltac on_command command k tac :=
  let E := fresh "E" in
  destruct (command == k) eqn:E; cbn [orb]; [apply Str_eqb_eq in E; tac|clear E].

Ltac through_commands command tac :=
  on_command command ("author" : Str) tac;
  on_command command ("authors" : Str) tac;
  on_command command ("attention" : Str) tac;
  on_command command ("brief" : Str) tac;
  on_command command ("bug" : Str) tac;
  on_command command ("copyright" : Str) tac;
  on_command command ("deprecated" : Str) tac;
  on_command command ("experimental" : Str) tac;
  on_command command ("li" : Str) tac;
  on_command command ("note" : Str) tac;
  on_command command ("remark" : Str) tac;
  on_command command ("since" : Str) tac;
  on_command command ("par" : Str) tac;
  on_command command ("pre" : Str) tac;
  on_command command ("pos" : Str) tac;
  on_command command ("result" : Str) tac;
  on_command command ("return" : Str) tac;
  on_command command ("returns" : Str) tac;
  on_command command ("retval" : Str) tac;
  on_command command ("todo" : Str) tac;
  on_command command ("tutorial" : Str) tac;
  on_command command ("version" : Str) tac;
  on_command command ("warning" : Str) tac.

(** X20. A block command of a name that [ParseBlock] does not know is not
    dropped: its paragraph goes to the end of the detailed description, and
    nothing else of the record, nor the flag, changes. *)
Theorem ParseBlock_unknown_command (className command : Str) (args : list Str)
    (block : list Comment) (doc : ParsedDocumentation) (hasBriefTag : bool) :
  ~ In command known_block_commands ->
  ParseBlock className command args block doc hasBriefTag
  = (Doc.set_Detailed (Detailed doc ++ [ParseComments block className]) doc,
     hasBriefTag).
Proof.
  intros Hn.
  assert (Hneq : forall k, In k known_block_commands -> (command == k) = false).
  { intros k Hin. apply Str_eqb_neq. intros ->. contradiction. }
  unfold ParseBlock.
  rewrite !Hneq by (unfold known_block_commands; simpl; tauto).
  reflexivity.
Qed.

Lemma ParseBlock_unknown_command_witness :
  ParseBlock "Player" "see" [] [ParagraphComment [TextComment " Enemy"]]
             ParsedDocumentation_empty false
  = (Doc.set_Detailed
       ([] ++ [ParseComments [ParagraphComment [TextComment " Enemy"]] "Player"])
       ParsedDocumentation_empty,
     false).
Proof.
  apply (ParseBlock_unknown_command "Player" "see" []
           [ParagraphComment [TextComment " Enemy"]] ParsedDocumentation_empty false).
  not_in_closed_list.
Defined.

(** X21. [ParseBlock] sets the flag [hasBriefTag] for the command [brief]
    and leaves it as it is for every other command. *)
Theorem ParseBlock_flag (className command : Str) (args : list Str)
    (block : list Comment) (doc : ParsedDocumentation) (hasBriefTag : bool) :
  snd (ParseBlock className command args block doc hasBriefTag)
  = hasBriefTag || (command == "brief").
Proof.
  unfold ParseBlock. cbv zeta.
  through_commands command
    ltac:(subst command;
          repeat match goal with
                 | |- context [if ?b then _ else _] => destruct b
                 end;
          cbn [snd]; rewrite ?orb_true_r, ?orb_false_r; reflexivity).
  cbn [snd]. rewrite orb_false_r. reflexivity.
Qed.

(** X22. The command [brief], on a record whose brief description is of the
    kind [Normal]: an empty brief description is replaced; one that is not
    empty is carried on with the spans of the new paragraph if a [brief]
    command was seen before, and else it moves to the front of the detailed
    description, whether that was empty or not, and is replaced. *)
Theorem ParseBlock_brief (className : Str) (args : list Str) (block : list Comment)
    (doc : ParsedDocumentation) (hasBriefTag : bool) :
  Type_ (Brief doc) = ParagraphType.Normal ->
  let paragraph := ParseComments block className in
  ParseBlock className "brief" args block doc hasBriefTag
  = (if Para.empty (Brief doc) then Doc.set_Brief paragraph doc
     else if hasBriefTag then
       Doc.set_Brief
         (mkParagraph (Data (Brief doc) ++ Data paragraph) ParagraphType.Normal) doc
     else Doc.set_Brief paragraph (Doc.set_Detailed (Brief doc :: Detailed doc) doc),
     true).
Proof.
  intros Hkind paragraph.
  assert (Hblock : ParseBlock className "brief" args block doc hasBriefTag
    = if negb (Para.empty (Brief doc)) then
        if negb hasBriefTag then
          (Doc.set_Brief paragraph
             (Doc.set_Detailed
                (if Paragraphs_empty (Detailed doc)
                 then Paragraphs_add (Detailed doc) (Brief doc)
                 else Brief doc :: Detailed doc) doc), true)
        else (Doc.set_Brief (Para.add (Brief doc) paragraph) doc, true)
      else (Doc.set_Brief paragraph doc, true)) by reflexivity.
  rewrite Hblock.
  destruct (Para.empty (Brief doc)); cbn [negb]; [reflexivity|].
  destruct hasBriefTag; cbn [negb].
  - rewrite Para_add_same_type
      by (unfold paragraph; now rewrite ParseComments_kind).
    now rewrite Hkind.
  - now destruct (Detailed doc).
Qed.

Lemma ParseBlock_brief_witness :
  ParseBlock "Player" "brief" [] [ParagraphComment [TextComment " and more."]]
             (Doc.set_Brief (mkParagraph ["Moves" : Str] ParagraphType.Normal)
                            ParsedDocumentation_empty)
             true
  = (Doc.set_Brief
       (mkParagraph (["Moves" : Str] ++ [" and more." : Str]) ParagraphType.Normal)
       (Doc.set_Brief (mkParagraph ["Moves" : Str] ParagraphType.Normal)
                      ParsedDocumentation_empty),
     true).
Proof.
  exact (ParseBlock_brief "Player" [] [ParagraphComment [TextComment " and more."]]
           (Doc.set_Brief (mkParagraph ["Moves" : Str] ParagraphType.Normal)
                          ParsedDocumentation_empty)
           true eq_refl).
Defined.

(** ** The record as it is assembled *)

Lemma ParseTopLevel_ignored className st c :
  ignored_top_level c = true -> ParseTopLevel className st c = st.
Proof.
  destruct st as [doc flag].
  destruct c; cbn [ignored_top_level ParseTopLevel]; try discriminate; try reflexivity.
  now intros ->.
Qed.

Lemma ParseTopLevel_fold_filter className children st :
  fold_left (ParseTopLevel className) children st
  = fold_left (ParseTopLevel className)
              (filter (fun c => negb (ignored_top_level c)) children) st.
Proof.
  revert st; induction children as [|c children IH]; intros st; cbn [fold_left filter];
    [reflexivity|].
  destruct (ignored_top_level c) eqn:Hc; cbn [negb fold_left].
  - now rewrite (ParseTopLevel_ignored _ _ _ Hc).
  - apply IH.
Qed.

(** X23. Top-level nodes of a kind that the constructor does not handle
    (text, inline commands, HTML tags, lines of a verbatim block, template
    parameter commands, full comments) and parameter commands flagged vararg
    are passed over: the record is what it is without them, and it is the
    empty record when there is nothing else. *)
Theorem constructor_ignores_other_nodes (hasBriefTag0 : bool) (className : Str)
    (children : list Comment) :
  ParsedDocumentation_of hasBriefTag0 className (Some children)
  = ParsedDocumentation_of hasBriefTag0 className
      (Some (filter (fun c => negb (ignored_top_level c)) children))
  /\ (forallb ignored_top_level children = true ->
      ParsedDocumentation_of hasBriefTag0 className (Some children)
      = ParsedDocumentation_empty).
Proof.
  split.
  - unfold ParsedDocumentation_of. now rewrite ParseTopLevel_fold_filter.
  - intros Hall. unfold ParsedDocumentation_of.
    rewrite ParseTopLevel_fold_filter.
    replace (filter (fun c => negb (ignored_top_level c)) children) with (@nil Comment);
      [reflexivity|].
    induction children as [|c children IH]; [reflexivity|].
    cbn [forallb filter] in *. apply andb_prop in Hall as [Hc Hall].
    rewrite Hc. cbn [negb]. now apply IH.
Qed.

Lemma constructor_ignores_other_nodes_witness :
  ParsedDocumentation_of true "Player"
    (Some [TextComment "stray"; ParamCommandComment true 0 "..." [];
           HTMLStartTagComment])
  = ParsedDocumentation_empty.
Proof.
  exact (proj2 (constructor_ignores_other_nodes true "Player"
                  [TextComment "stray"; ParamCommandComment true 0 "..." [];
                   HTMLStartTagComment]) eq_refl).
Defined.

Lemma all_Normal_add paras para :
  all_Normal paras -> Type_ para = ParagraphType.Normal ->
  all_Normal (Paragraphs_add paras para).
Proof.
  intros Hp Hx. unfold all_Normal, Paragraphs_add. apply Forall_app. split; [exact Hp|].
  now constructor.
Qed.

Lemma ParseTutorial_Normal paragraph tutorials :
  Type_ paragraph = ParagraphType.Normal ->
  Forall (fun t => Type_ (Title_ t) = ParagraphType.Normal) tutorials ->
  Forall (fun t => Type_ (Title_ t) = ParagraphType.Normal)
         (ParseTutorial paragraph tutorials).
Proof.
  intros Hp Ht. unfold ParseTutorial.
  destruct (first_nonblank (Data paragraph)) as [[[before it] after]|]; [|exact Ht].
  destruct (StringRef.find_first_of _ _ _);
    apply Forall_app; (split; [exact Ht|]); now constructor.
Qed.

(** Reduces the members of a record after one of them was assigned. *)
Ltac record_members :=
  cbn [fst Doc.set_Detailed Doc.set_Brief Doc.set_Author Doc.set_Copyright
       Doc.set_Since Doc.set_Version Doc.set_Preconditions
       Doc.set_Postconditions Doc.set_ReturnDesc Doc.set_Deprecated
       Doc.set_Experimental Doc.set_Tutorials Doc.set_ReturnValues
       Doc.set_ParameterDescs
       Brief ReturnDesc Deprecated Experimental Author Copyright Since
       Version Preconditions Postconditions Tutorials ReturnValues Detailed
       ParameterDescs Message Description] in *.

Lemma ParseBlock_sections_Normal className command args block doc flag :
  sections_Normal doc ->
  sections_Normal (fst (ParseBlock className command args block doc flag)).
Proof.
  intros H. pose proof (ParseComments_kind block className) as Hpara.
  destruct doc.
  destruct H as (H1 & H2 & H3 & H4 & H5 & H6 & H7 & H8 & H9 & H10 & H11 & H12).
  cbn [Brief ReturnDesc Deprecated Experimental Author Copyright Since Version
       Preconditions Postconditions Tutorials ReturnValues] in *.
  unfold ParseBlock. cbv zeta.
  through_commands command
    ltac:(repeat match goal with
                 | |- context [if ?b then _ else _] => destruct b
                 end;
          unfold sections_Normal; record_members;
          rewrite ?Para_add_type;
          repeat split;
          auto using all_Normal_add, ParseTutorial_Normal;
          apply Forall_app; (split; [assumption|]); now constructor).
  unfold sections_Normal. record_members. repeat split; assumption.
Qed.

Lemma ParseTopLevel_sections_Normal className st c :
  sections_Normal (fst st) -> sections_Normal (fst (ParseTopLevel className st c)).
Proof.
  destruct st as [doc flag]. cbn [fst]. intros H.
  destruct c; cbn [ParseTopLevel]; try exact H.
  - now apply ParseBlock_sections_Normal.
  - pose proof (ParseComments_kind children className) as Hpara.
    destruct doc. destruct (negb flag && Para.empty _);
      unfold sections_Normal in *; record_members; tauto.
  - unfold ParseVerbatim.
    destruct (if CommandName == "code" then _ else _) as [paraType lines].
    destruct doc. unfold sections_Normal in *. record_members. tauto.
  - destruct isVarArgParam; exact H.
Qed.

(** X24. In every record that the constructor builds, whatever the comment
    and whatever the flag read at first, the brief description, the return
    description, the two status messages, the titles of the tutorials, the
    descriptions of the return values and all the paragraphs of the author,
    copyright, since, version, precondition and postcondition sections are
    of the kind [Normal]. *)
Theorem constructor_sections_Normal (hasBriefTag0 : bool) (className : Str)
    (doc : option (list Comment)) :
  sections_Normal (ParsedDocumentation_of hasBriefTag0 className doc).
Proof.
  assert (Hempty : sections_Normal ParsedDocumentation_empty).
  { unfold sections_Normal, all_Normal. cbn. repeat split; constructor. }
  destruct doc as [children|]; [|exact Hempty]. unfold ParsedDocumentation_of.
  assert (Hfold : forall st, sections_Normal (fst st) ->
            sections_Normal (fst (fold_left (ParseTopLevel className) children st))).
  { induction children as [|c children IH]; intros st Hst; cbn [fold_left];
      [exact Hst|]. now apply IH, ParseTopLevel_sections_Normal. }
  now apply Hfold.
Qed.

(** ** Parameter descriptions, continued *)

Lemma ParseParam_length className idx name block descs :
  (idx < 2 ^ 32 - 1)%N ->
  length (ParseParam className idx name block descs)
  = Nat.max (length descs) (N.to_nat idx + 1).
Proof.
  intros Hidx. rewrite ParseParam_resized by exact Hidx.
  rewrite assign_at_length, length_app, repeat_length. lia.
Qed.

Lemma ParseParam_nth_error className idx name block descs k :
  (idx < 2 ^ 32 - 1)%N ->
  nth_error (ParseParam className idx name block descs) k
  = if (k =? N.to_nat idx)%nat
    then Some (mkParameters name (ParseComments block className))
    else if (k <? length descs)%nat then nth_error descs k
    else if (k <? N.to_nat idx)%nat then Some Parameters_new
    else None.
Proof.
  intros Hidx. rewrite ParseParam_resized by exact Hidx.
  destruct (Nat.eqb_spec k (N.to_nat idx)) as [->|Hne].
  - apply assign_at_same. rewrite length_app, repeat_length. lia.
  - rewrite assign_at_other by exact Hne.
    destruct (Nat.ltb_spec k (length descs)) as [Hlt|Hge].
    + now apply nth_error_app1.
    + rewrite nth_error_app2 by exact Hge.
      destruct (Nat.ltb_spec k (N.to_nat idx)) as [Hlt|Hge'].
      * apply nth_error_repeat. lia.
      * apply nth_error_None. rewrite repeat_length. lia.
Qed.

(** X25. Parameters may be documented in any order: for two different valid
    indices, the list of parameter descriptions is the same whichever of the
    two nodes comes first. *)
Theorem ParseParam_order (className : Str) (i j : N) (name_i name_j : Str)
    (block_i block_j : list Comment) (descs : list Parameters) :
  (i < 2 ^ 32 - 1)%N -> (j < 2 ^ 32 - 1)%N -> i <> j ->
  ParseParam className j name_j block_j (ParseParam className i name_i block_i descs)
  = ParseParam className i name_i block_i (ParseParam className j name_j block_j descs).
Proof.
  intros Hi Hj Hne. apply nth_error_ext. intros k.
  rewrite !ParseParam_nth_error, !ParseParam_length by assumption.
  repeat match goal with
         | |- context [(?a =? ?b)%nat] => destruct (Nat.eqb_spec a b)
         | |- context [(?a <? ?b)%nat] => destruct (Nat.ltb_spec a b)
         end; try reflexivity; lia.
Qed.

Lemma ParseParam_order_witness :
  ParseParam "Player" 0 "speed" [ParagraphComment [TextComment " How fast."]]
    (ParseParam "Player" 2 "mode" [ParagraphComment [TextComment " Which way."]] [])
  = ParseParam "Player" 2 "mode" [ParagraphComment [TextComment " Which way."]]
      (ParseParam "Player" 0 "speed" [ParagraphComment [TextComment " How fast."]] []).
Proof.
  apply (ParseParam_order "Player" 2 0 "mode" "speed"
           [ParagraphComment [TextComment " Which way."]]
           [ParagraphComment [TextComment " How fast."]] []).
  - reflexivity.
  - reflexivity.
  - discriminate.
Defined.

(** X26. A parameter documented twice keeps the later name and description
    only: the earlier node leaves no trace beyond the slots it created. *)
Theorem ParseParam_again (className : Str) (idx : N) (name name' : Str)
    (block block' : list Comment) (descs : list Parameters) :
  (idx < 2 ^ 32 - 1)%N ->
  ParseParam className idx name' block' (ParseParam className idx name block descs)
  = ParseParam className idx name' block' descs.
Proof.
  intros Hidx. apply nth_error_ext. intros k.
  rewrite !ParseParam_nth_error, !ParseParam_length by assumption.
  repeat match goal with
         | |- context [(?a =? ?b)%nat] => destruct (Nat.eqb_spec a b)
         | |- context [(?a <? ?b)%nat] => destruct (Nat.ltb_spec a b)
         end; try reflexivity; lia.
Qed.

Lemma ParseParam_again_witness :
  ParseParam "Player" 1 "speed" [ParagraphComment [TextComment " In px/s."]]
    (ParseParam "Player" 1 "velocity" [ParagraphComment [TextComment " Old text."]] [])
  = ParseParam "Player" 1 "speed" [ParagraphComment [TextComment " In px/s."]] [].
Proof.
  apply (ParseParam_again "Player" 1 "velocity" "speed"
           [ParagraphComment [TextComment " Old text."]]
           [ParagraphComment [TextComment " In px/s."]] []).
  reflexivity.
Defined.

(** ** Verbatim blocks *)

Lemma verbatim_lines_fold texts para :
  fold_left
    (fun para c =>
       match as_VerbatimBlockLine c with
       | Some text => Para.add_text para text
       | None => para
       end)
    (map VerbatimBlockLineComment texts) para
  = mkParagraph (Data para ++ texts) (Type_ para).
Proof.
  revert para; induction texts as [|t texts IH]; intros para; cbn [map fold_left].
  - rewrite app_nil_r. now destruct para.
  - cbn [as_VerbatimBlockLine]. rewrite IH. cbn [Para.add_text Data Type_].
    now rewrite <- app_assoc.
Qed.

(** X27. A verbatim block appends one paragraph to the detailed description,
    with one span for each of its lines.  For a command other than [code]
    the paragraph is plain verbatim text of all the lines.  For [code], a
    first line that reads [{.gd}] or [{.cs}] once trimmed selects GDScript
    or C# and is left out of the paragraph; any other first line is kept and
    the paragraph is plain verbatim text. *)
Theorem ParseVerbatim_lines (command marker : Str) (texts : list Str)
    (doc : ParsedDocumentation) :
  let lines := map VerbatimBlockLineComment in
  let appended type data :=
    Doc.set_Detailed (Detailed doc ++ [mkParagraph data type]) doc in
  (command <> "code" ->
   ParseVerbatim command (lines texts) doc = appended ParagraphType.VerbatimText texts)
  /\ (StringRef.trim marker = "{.gd}" ->
      ParseVerbatim "code" (lines (marker :: texts)) doc
      = appended ParagraphType.GDScript texts)
  /\ (StringRef.trim marker = "{.cs}" ->
      ParseVerbatim "code" (lines (marker :: texts)) doc
      = appended ParagraphType.CSharpCode texts)
  /\ (StringRef.trim marker <> "{.gd}" -> StringRef.trim marker <> "{.cs}" ->
      ParseVerbatim "code" (lines (marker :: texts)) doc
      = appended ParagraphType.VerbatimText (marker :: texts)).
Proof.
  intros lines appended. unfold ParseVerbatim, lines, appended.
  split; [|split; [|split]].
  - intros Hc. rewrite (Str_eqb_neq _ _ Hc). now rewrite verbatim_lines_fold.
  - intros Hm. change (("code" : Str) == "code") with true. cbv iota.
    cbn [map first_line as_VerbatimBlockLine]. rewrite Hm.
    change (("{.gd}" : Str) == "{.gd}") with true. cbv iota. cbn [skipn].
    now rewrite verbatim_lines_fold.
  - intros Hm. change (("code" : Str) == "code") with true. cbv iota.
    cbn [map first_line as_VerbatimBlockLine]. rewrite Hm.
    change (("{.cs}" : Str) == "{.gd}") with false.
    change (("{.cs}" : Str) == "{.cs}") with true. cbv iota. cbn [skipn].
    now rewrite verbatim_lines_fold.
  - intros Hgd Hcs. change (("code" : Str) == "code") with true. cbv iota.
    cbn [map first_line as_VerbatimBlockLine].
    rewrite (Str_eqb_neq _ _ Hgd), (Str_eqb_neq _ _ Hcs).
    change (VerbatimBlockLineComment marker :: map VerbatimBlockLineComment texts)
      with (map VerbatimBlockLineComment (marker :: texts)).
    now rewrite verbatim_lines_fold.
Qed.

Lemma ParseVerbatim_lines_witness :
  ParseVerbatim "code"
    (map VerbatimBlockLineComment [" {.gd}" : Str; "var x = 1" : Str])
    ParsedDocumentation_empty
  = Doc.set_Detailed
      ([] ++ [mkParagraph ["var x = 1" : Str] ParagraphType.GDScript])
      ParsedDocumentation_empty.
Proof.
  exact (proj1 (proj2 (ParseVerbatim_lines "code" " {.gd}" ["var x = 1" : Str]
                         ParsedDocumentation_empty)) eq_refl).
Defined.

(** ** Tutorials, continued *)

Lemma ltrim_head s :
  match StringRef.ltrim s with
  | [] => True
  | c :: _ => StringRef.is_space c = false
  end.
Proof.
  induction s as [|c s IH]; cbn [StringRef.ltrim]; [exact I|].
  destruct (StringRef.is_space c) eqn:E; [exact IH|exact E].
Qed.

Lemma ltrim_snoc l c :
  StringRef.is_space c = false -> StringRef.ltrim (l ++ [c]) = StringRef.ltrim l ++ [c].
Proof.
  intros Hc. induction l as [|x l IH]; cbn [app StringRef.ltrim].
  - now rewrite Hc.
  - destruct (StringRef.is_space x); [exact IH|reflexivity].
Qed.

Lemma rtrim_cons c s :
  StringRef.is_space c = false -> StringRef.rtrim (c :: s) = c :: StringRef.rtrim s.
Proof.
  intros Hc. unfold StringRef.rtrim. cbn [rev].
  now rewrite (ltrim_snoc _ _ Hc), rev_app_distr.
Qed.

Lemma trim_head span :
  blank span = false ->
  exists c rest, StringRef.trim span = c :: rest /\ StringRef.is_space c = false.
Proof.
  unfold blank, StringRef.trim. intros Hb.
  pose proof (ltrim_head span) as Hh.
  destruct (StringRef.ltrim span) as [|c rest]; [discriminate|].
  exists c, (StringRef.rtrim rest). split; [now apply rtrim_cons|exact Hh].
Qed.

Lemma first_nonblank_found data before it after :
  first_nonblank data = Some (before, it, after) -> blank it = false.
Proof.
  revert before; induction data as [|str data IH]; intros before;
    cbn [first_nonblank]; [discriminate|].
  change (StringRef.empty (StringRef.ltrim str)) with (blank str).
  destruct (blank str) eqn:Hs; cbn [negb].
  - destruct (first_nonblank data) as [[[b i] a]|]; [|discriminate].
    intros [= _ <- <-]. now apply (IH b).
  - now intros [= _ <- _].
Qed.

Lemma ParseTutorial_usable paragraph tutorials :
  Forall usable_URL tutorials -> Forall usable_URL (ParseTutorial paragraph tutorials).
Proof.
  intros Ht. unfold ParseTutorial.
  destruct (first_nonblank (Data paragraph)) as [[[before it] after]|] eqn:Hfirst;
    [|exact Ht].
  apply first_nonblank_found in Hfirst.
  destruct (trim_head _ Hfirst) as (c & rest & Htrim & Hc).
  unfold StringRef.find_first_of.
  destruct (StringRef.find_from _ (StringRef.trim it) 0) as [pos|] eqn:E;
    apply Forall_app; (split; [exact Ht|]);
    (apply Forall_cons; [|apply Forall_nil]); unfold usable_URL; cbn [URL].
  - destruct (find_from_Some _ _ _ _ E) as (_ & x & Hsplit & _ & Hx & Hurl).
    rewrite Nat.sub_0_r in Hurl. split; [|exact Hurl].
    rewrite Htrim in *. destruct pos as [|pos]; [|cbn; discriminate].
    cbn in Hsplit. injection Hsplit as <-.
    change (StringRef.in_chars c StringRef.whitespace) with (StringRef.is_space c) in Hx.
    congruence.
  - apply find_from_None in E. cbn [skipn] in E. split; [|exact E].
    now rewrite Htrim.
Qed.

Lemma ParseBlock_Tutorials className command args block doc flag :
  Tutorials (fst (ParseBlock className command args block doc flag))
  = if command == "tutorial"
    then ParseTutorial (ParseComments block className) (Tutorials doc)
    else Tutorials doc.
Proof.
  destruct doc. unfold ParseBlock. cbv zeta.
  through_commands command
    ltac:(subst command;
          try match goal with
              | |- _ = (if ?t then _ else _) =>
                  let v := eval vm_compute in t in change t with v
              end;
          cbv iota;
          repeat match goal with
                 | |- context [if ?b then _ else _] => destruct b
                 end;
          reflexivity).
  reflexivity.
Qed.

(** X28. Every tutorial of a record that the constructor builds has a URL
    with at least one byte and no whitespace in it. *)
Theorem constructor_tutorial_URLs (hasBriefTag0 : bool) (className : Str)
    (doc : option (list Comment)) :
  Forall usable_URL (Tutorials (ParsedDocumentation_of hasBriefTag0 className doc)).
Proof.
  destruct doc as [children|]; [|constructor]. unfold ParsedDocumentation_of.
  assert (Hfold : forall st, Forall usable_URL (Tutorials (fst st)) ->
            Forall usable_URL
              (Tutorials (fst (fold_left (ParseTopLevel className) children st)))).
  { induction children as [|c children IH]; intros st Hst; cbn [fold_left];
      [exact Hst|].
    apply IH. destruct st as [d flag]. cbn [fst] in Hst.
    destruct c; cbn [ParseTopLevel]; try exact Hst.
    - rewrite ParseBlock_Tutorials. destruct (CommandName == "tutorial");
        [now apply ParseTutorial_usable|exact Hst].
    - now destruct (negb flag && Para.empty (Brief d)).
    - unfold ParseVerbatim.
      now destruct (if CommandName == "code" then _ else _) as [paraType lines].
    - now destruct isVarArgParam. }
  apply Hfold. constructor.
Qed.

(** ** Tutorials: the entry that is appended *)

(** C9 as worded fails on a paragraph with a further span behind the one
    that holds the URL: the span holds nothing but the URL, so the fragment
    that remains of it is empty, while the title of the entry is the
    paragraph without that span, and this still holds the other span. *)
Lemma tutorial_title_counterexample :
  Tutorials
    (fst (ParseBlock "Player" "tutorial" []
            [ParagraphComment [TextComment " https://x.org/y"; TextComment " My Title"]]
            ParsedDocumentation_empty false))
  = [mkTutorial "https://x.org/y"
                (mkParagraph [" My Title" : Str] ParagraphType.Normal)]
  /\ tutorial_as_worded
       (ParseComments
          [ParagraphComment [TextComment " https://x.org/y"; TextComment " My Title"]]
          "Player")
     = Some (mkTutorial "https://x.org/y" (mkParagraph [] ParagraphType.Normal))
  /\ Some (Tutorials
             (fst (ParseBlock "Player" "tutorial" []
                     [ParagraphComment
                        [TextComment " https://x.org/y"; TextComment " My Title"]]
                     ParsedDocumentation_empty false)))
     <> option_map (fun entry => Tutorials ParsedDocumentation_empty ++ [entry])
          (tutorial_as_worded
             (ParseComments
                [ParagraphComment
                   [TextComment " https://x.org/y"; TextComment " My Title"]]
                "Player")).
Proof. repeat split. vm_compute. discriminate. Qed.

Lemma Tutorials_set_Tutorials v doc : Tutorials (Doc.set_Tutorials v doc) = v.
Proof. reflexivity. Qed.

(** C9 (amended). A [tutorial] command whose paragraph has only blank spans
    adds no tutorial and leaves the record and the flag as they were.
    Otherwise exactly one tutorial is appended to the list, and nothing else
    of the record, nor the flag, changes: the first span that is not blank is
    trimmed and split at its first run of whitespace; the URL of the entry
    is what stands before that run, or the whole trimmed span if it holds no
    whitespace; the title of the entry is the whole paragraph, with that span
    replaced by what stands behind the run, or taken out if it holds no
    whitespace, and with all its other spans kept. *)
Theorem tutorial_entry (className : Str) (args : list Str) (block : list Comment)
    (doc : ParsedDocumentation) (flag : bool) :
  let paragraph := ParseComments block className in
  let result := ParseBlock className "tutorial" args block doc flag in
  (Para.empty paragraph = true ->
   Tutorials (fst result) = Tutorials doc /\ result = (doc, flag))
  /\ (forall before span after,
        Data paragraph = before ++ span :: after ->
        forallb blank before = true -> blank span = false ->
        exists url title,
          Tutorials (fst result)
          = Tutorials doc ++ [mkTutorial url (mkParagraph title ParagraphType.Normal)]
          /\ length (Tutorials (fst result)) = S (length (Tutorials doc))
          /\ snd result = flag
          /\ Detailed (fst result) = Detailed doc
          /\ Brief (fst result) = Brief doc
          /\ ((forallb (fun c => negb (StringRef.is_space c)) (StringRef.trim span) = true
               /\ url = StringRef.trim span
               /\ title = before ++ after)
              \/ (exists run fragment,
                     StringRef.trim span = url ++ run ++ fragment
                     /\ run <> []
                     /\ forallb StringRef.is_space run = true
                     /\ forallb (fun c => negb (StringRef.is_space c)) url = true
                     /\ StringRef.ltrim fragment = fragment
                     /\ title = before ++ fragment :: after))).
Proof.
  intros paragraph result.
  pose proof (ParseBlock_tutorial_record className args block doc flag) as [Hnone Hsome].
  fold paragraph in Hnone, Hsome. fold result in Hnone, Hsome.
  split.
  - intros Hempty. rewrite (Hnone Hempty). now split.
  - intros before span after Hdata Hb Hs.
    destruct (Hsome before span after Hdata Hb Hs) as (url & title & Heq & Hcase).
    assert (Hkind : Type_ paragraph = ParagraphType.Normal)
      by apply ParseComments_kind.
    exists url, title. rewrite Heq, Hkind. cbn [fst snd].
    rewrite Tutorials_set_Tutorials, length_app. cbn [length].
    split; [reflexivity|]. split; [lia|]. split; [reflexivity|].
    split; [now destruct doc|]. split; [now destruct doc|]. exact Hcase.
Qed.

Lemma tutorial_entry_witness :
  (Tutorials
     (fst (ParseBlock "Player" "tutorial" [] [ParagraphComment [TextComment " "]]
                      ParsedDocumentation_empty false))
   = Tutorials ParsedDocumentation_empty
   /\ ParseBlock "Player" "tutorial" [] [ParagraphComment [TextComment " "]]
                 ParsedDocumentation_empty false
      = (ParsedDocumentation_empty, false))
  /\ exists url title,
       Tutorials
         (fst (ParseBlock "Player" "tutorial" []
                 [ParagraphComment
                    [TextComment " https://x.org/doc  The guide"; TextComment " to it "]]
                 ParsedDocumentation_empty false))
       = [] ++ [mkTutorial url (mkParagraph title ParagraphType.Normal)]
       /\ length
            (Tutorials
               (fst (ParseBlock "Player" "tutorial" []
                       [ParagraphComment
                          [TextComment " https://x.org/doc  The guide";
                           TextComment " to it "]]
                       ParsedDocumentation_empty false)))
          = 1
       /\ snd (ParseBlock "Player" "tutorial" []
                 [ParagraphComment
                    [TextComment " https://x.org/doc  The guide"; TextComment " to it "]]
                 ParsedDocumentation_empty false)
          = false
       /\ Detailed
            (fst (ParseBlock "Player" "tutorial" []
                    [ParagraphComment
                       [TextComment " https://x.org/doc  The guide";
                        TextComment " to it "]]
                    ParsedDocumentation_empty false))
          = []
       /\ Brief
            (fst (ParseBlock "Player" "tutorial" []
                    [ParagraphComment
                       [TextComment " https://x.org/doc  The guide";
                        TextComment " to it "]]
                    ParsedDocumentation_empty false))
          = mkParagraph [] ParagraphType.Normal
       /\ ((forallb (fun c => negb (StringRef.is_space c))
                    (StringRef.trim " https://x.org/doc  The guide") = true
            /\ url = StringRef.trim " https://x.org/doc  The guide"
            /\ title = [] ++ [" to it " : Str])
           \/ (exists run fragment,
                  StringRef.trim " https://x.org/doc  The guide" = url ++ run ++ fragment
                  /\ run <> []
                  /\ forallb StringRef.is_space run = true
                  /\ forallb (fun c => negb (StringRef.is_space c)) url = true
                  /\ StringRef.ltrim fragment = fragment
                  /\ title = [] ++ fragment :: [" to it " : Str])).
Proof.
  split.
  - exact (proj1 (tutorial_entry "Player" [] [ParagraphComment [TextComment " "]]
                    ParsedDocumentation_empty false) eq_refl).
  - exact (proj2 (tutorial_entry "Player" []
                    [ParagraphComment
                       [TextComment " https://x.org/doc  The guide";
                        TextComment " to it "]]
                    ParsedDocumentation_empty false)
                 [] " https://x.org/doc  The guide" [" to it " : Str]
                 eq_refl eq_refl eq_refl).
Defined.

Example tutorial_entry_example :
  Tutorials
    (fst (ParseBlock "Player" "tutorial" []
            [ParagraphComment
               [TextComment " https://x.org/doc  The guide"; TextComment " to it "]]
            ParsedDocumentation_empty false))
  = [mkTutorial "https://x.org/doc"
                (mkParagraph ["The guide" : Str; " to it " : Str] ParagraphType.Normal)].
Proof. reflexivity. Qed.
